(** * ConnectionsContext: a per-tenant cache of database connections

    Shallow embedding of [src/connections.context.js].

    The class keeps a JavaScript [Map] from connection keys to driver
    connection objects and talks to an external driver (mongoose) to open,
    close and ping connections.  The embedding is organised as follows.

    - [JSMap]: the insertion-ordered [Map] of JavaScript, as an association
      list; iteration order is insertion order, and it fixes the order in
      which [closeAllConnections] and [healthCheck] address the driver.
    - [Driver]: the interface of the external driver.  Every theorem of the
      development is stated for an arbitrary driver; [MockDriver] is one
      concrete, scriptable driver used to run the code on examples.
    - [World]: the object [this] (the map and the configuration fields),
      the listeners registered on connection objects, the [Map] objects
      handed out to callers, the driver's own state, and two logs: the
      requests sent to the driver and the console output.
    - [M]: a state monad with JavaScript exceptions; a [throw] keeps the
      state reached so far, as in JavaScript.
    - [JSObject]: the plain object [healthCheck] returns, with its own
      properties and its prototype.
    - [Promise]: a settled promise with the reactions chained on it, run
      as jobs of the microtask queue.

    An [async] method is run to completion: at every [await] the answer of
    the driver is taken from the driver model and no other task is
    scheduled in between.  Events emitted by the driver are separate steps
    ([emit]). *)

From Stdlib Require Import String List ZArith Bool Lia Permutation.
Import ListNotations.

Local Open Scope string_scope.
Local Open Scope list_scope.

(** ** JavaScript values used by the class *)

(** A connection object is identified by its address in the driver. *)
Definition Handle := nat.

(** An [Error] object; only [message] is ever read or written. *)
Record JSError := mkError { message : string }.

(** Descriptive fields of a connection ([host], [port], [name]) are passed
    through unread. *)
Inductive JSValue :=
| JSUndefined
| JSNumber (z : Z)
| JSString (s : string).

(** [a || b] on an optional string: [null], [undefined] and the empty
    string are falsy. *)
Definition truthy (v : option string) : bool :=
  match v with
  | Some s => negb (s =? "")
  | None => false
  end.

(** Conversion performed by a template literal. *)
Definition toString (v : option string) : string :=
  match v with
  | Some s => s
  | None => "null"
  end.

Definition js_or (v : option string) (d : string) : string :=
  if truthy v then toString v else d.

(** ** The insertion-ordered Map *)

Module JSMap.

Section Ops.
Context {V : Type}.

Definition t := list (string * V).

Definition empty : t := [].

Fixpoint get (k : string) (m : t) : option V :=
  match m with
  | [] => None
  | (k', v) :: m' => if k' =? k then Some v else get k m'
  end.

Definition has (k : string) (m : t) : bool :=
  match get k m with
  | Some _ => true
  | None => false
  end.

(** An existing key keeps its position, a new key goes last. *)
Fixpoint set (k : string) (v : V) (m : t) : t :=
  match m with
  | [] => [(k, v)]
  | (k', v') :: m' =>
      if k' =? k then (k, v) :: m' else (k', v') :: set k v m'
  end.

Fixpoint delete (k : string) (m : t) : t :=
  match m with
  | [] => []
  | (k', v') :: m' =>
      if k' =? k then m' else (k', v') :: delete k m'
  end.

Definition clear (m : t) : t := [].

Definition keys (m : t) : list string := map fst m.

(** Representation invariant: a key occurs once. *)
Definition wf (m : t) : Prop := NoDup (keys m).

End Ops.

Arguments t : clear implicits.

End JSMap.

(** ** The plain object *)

Module JSObject.

Section Ops.
Context {V : Type}.

(** An object created by [{}] whose properties are only ever assigned
    objects: its own properties, looked up by name, and the object its
    prototype was set to, [None] standing for [Object.prototype].  The
    order in which the own properties enumerate is not represented. *)
Record t := mk {
  own : string -> option V;
  proto : option V
}.

(** [{}] *)
Definition empty : t := mk (fun _ => None) None.

(** [o[key] = v] for an object [v].  The name [__proto__] is the accessor
    inherited from [Object.prototype]: assigning it an object sets the
    prototype and creates no own property.  Any other name creates or
    overwrites an own property. *)
Definition assign (key : string) (v : V) (o : t) : t :=
  if key =? "__proto__"
  then mk (own o) (Some v)
  else mk (fun k => if k =? key then Some v else own o k) (proto o).


End Ops.

Arguments t : clear implicits.

End JSObject.

(** ** The external driver *)

Record ConnectionOptions := mkOptions {
  maxPoolSize : Z;
  serverSelectionTimeoutMS : Z;
  socketTimeoutMS : Z;
  bufferCommands : bool
}.

(** What the class consumes from mongoose.  The three requests are
    asynchronous and may be rejected; their answer ([inl]/[Some]: the
    rejection) and the driver's next state are the driver's choice.  The
    remaining members are synchronous property reads. *)
Class Driver := {
  DriverState : Type;
  drv_createConnection :
    string -> ConnectionOptions -> DriverState -> (JSError + Handle) * DriverState;
  drv_close : Handle -> DriverState -> option JSError * DriverState;
  drv_ping : Handle -> DriverState -> option JSError * DriverState;
  drv_readyState : Handle -> DriverState -> Z;
  drv_host : Handle -> DriverState -> JSValue;
  drv_port : Handle -> DriverState -> JSValue;
  drv_name : Handle -> DriverState -> JSValue;
  drv_models : Handle -> DriverState -> option (list string)
}.

(** Requests sent to the driver, oldest first. *)
Inductive DriverCall :=
| call_createConnection (connectionString : string) (options : ConnectionOptions)
| call_close (connection : Handle)
| call_ping (connection : Handle).

(** The four arrow functions of [setupConnectionListeners]; each closes
    over [connectionKey]. *)
Inductive Callback :=
| cb_connected (connectionKey : string)
| cb_error (connectionKey : string)
| cb_disconnected (connectionKey : string)
| cb_reconnected (connectionKey : string).

(** Console output, oldest first; the constructor tells [console.log]
    from [console.error] and carries the interpolated values. *)
Inductive ConsoleLine :=
| log_connected_to_database (dbName : string)
| error_failed_to_connect (connectionKey : string) (error : JSError)
| log_database_connected (connectionKey : string)
| error_database_error (connectionKey : string) (error : option JSError)
| log_database_disconnected (connectionKey : string)
| log_database_reconnected (connectionKey : string)
| log_closed_connection (connectionKey : string)
| error_closing_connection (connectionKey : string) (error : JSError)
| log_all_closed.

(** Environment variables read by the constructor. *)
Record Env := mkEnv {
  MONGODB_URI : option string;
  MAIN_DB_NAME : option string
}.

(** One entry of the object returned by [healthCheck]. *)
Inductive HealthReport :=
| healthy (readyState : Z) (host port dbName : JSValue)
| unhealthy (error : string) (readyState : Z).

(** The object returned by [getConnectionInfo]. *)
Record ConnectionInfo := mkInfo {
  info_key : string;
  info_readyState : Z;
  info_host : JSValue;
  info_port : JSValue;
  info_dbName : JSValue;
  info_collections : list string
}.

(** A reference to a [Map] object: the one held in [this.connections]
    (created by the constructor, the field is never reassigned), or one
    created later by [new Map()]. *)
Inductive MapRef :=
| this_connections
| allocated (n : nat).

(** Outcome of a statement or of a settled promise. *)
Inductive Completion (A : Type) :=
| Normal (a : A)
| Throw (e : JSError).

Arguments Normal {A} a.
Arguments Throw {A} e.

Definition is_normal {A} (c : Completion A) : bool :=
  match c with
  | Normal _ => true
  | Throw _ => false
  end.

Section Context_.
Context {D : Driver}.

Record World := mkWorld {
  connections : JSMap.t Handle;
  baseConnectionString : string;
  mainDbName : string;
  connectionOptions : ConnectionOptions;
  listeners : list (Handle * string * Callback);
  maps : list (JSMap.t Handle);
  driver : DriverState;
  calls : list DriverCall;
  console : list ConsoleLine
}.

Definition with_connections (m : JSMap.t Handle) (w : World) : World :=
  mkWorld m (baseConnectionString w) (mainDbName w) (connectionOptions w)
          (listeners w) (maps w) (driver w) (calls w) (console w).

Definition with_listeners (l : list (Handle * string * Callback)) (w : World) : World :=
  mkWorld (connections w) (baseConnectionString w) (mainDbName w)
          (connectionOptions w) l (maps w) (driver w) (calls w) (console w).

Definition with_maps (ms : list (JSMap.t Handle)) (w : World) : World :=
  mkWorld (connections w) (baseConnectionString w) (mainDbName w)
          (connectionOptions w) (listeners w) ms (driver w) (calls w) (console w).

Definition with_driver (d : DriverState) (w : World) : World :=
  mkWorld (connections w) (baseConnectionString w) (mainDbName w)
          (connectionOptions w) (listeners w) (maps w) d (calls w) (console w).

Definition with_calls (c : list DriverCall) (w : World) : World :=
  mkWorld (connections w) (baseConnectionString w) (mainDbName w)
          (connectionOptions w) (listeners w) (maps w) (driver w) c (console w).

Definition with_console (c : list ConsoleLine) (w : World) : World :=
  mkWorld (connections w) (baseConnectionString w) (mainDbName w)
          (connectionOptions w) (listeners w) (maps w) (driver w) (calls w) c.

(** *** The monad of statements *)

Definition M (A : Type) := World -> Completion A * World.

Definition ret {A} (a : A) : M A := fun w => (Normal a, w).

Definition throw {A} (e : JSError) : M A := fun w => (Throw e, w).

Definition bind {A B} (m : M A) (k : A -> M B) : M B :=
  fun w =>
    match m w with
    | (Normal a, w') => k a w'
    | (Throw e, w') => (Throw e, w')
    end.

(** [try { body } catch (error) { handler }] *)
Definition try_catch {A} (body : M A) (handler : JSError -> M A) : M A :=
  fun w =>
    match body w with
    | (Normal a, w') => (Normal a, w')
    | (Throw e, w') => handler e w'
    end.

(** [try { body } finally { finalizer }]: the finalizer always runs; the
    completion of the body stands unless the finalizer throws. *)
Definition try_finally {A} (body : M A) (finalizer : M unit) : M A :=
  fun w =>
    match body w with
    | (c, w') =>
        match finalizer w' with
        | (Normal _, w'') => (c, w'')
        | (Throw e, w'') => (Throw e, w'')
        end
    end.

(** [await p] on a settled promise. *)
Definition await {A} (p : Completion A) : M A := fun w => (p, w).

Fixpoint for_each {A} (l : list A) (body : A -> M unit) : M unit :=
  match l with
  | [] => ret tt
  | x :: l' => bind (body x) (fun _ => for_each l' body)
  end.

(** A loop that updates a local variable. *)
Fixpoint fold_each {A B} (l : list A) (body : B -> A -> M B) (acc : B) : M B :=
  match l with
  | [] => ret acc
  | x :: l' => bind (body acc x) (fun acc' => fold_each l' body acc')
  end.

End Context_.

Declare Scope js_scope.
Delimit Scope js_scope with js.
Notation "x <- m ;; k" := (bind m (fun x => k))
  (at level 61, m at next level, right associativity) : js_scope.
Notation "m ;; k" := (bind m (fun _ => k))
  (at level 61, right associativity) : js_scope.
Local Open Scope js_scope.

Section ConnectionsContext.
Context {D : Driver}.

(** *** Primitive statements *)

Definition console_log (line : ConsoleLine) : M unit :=
  fun w => (Normal tt, with_console (console w ++ [line]) w).

(** [console.error] writes to the same record of console output. *)
Definition console_error (line : ConsoleLine) : M unit :=
  fun w => (Normal tt, with_console (console w ++ [line]) w).

Definition Map_read (r : MapRef) (w : World) : JSMap.t Handle :=
  match r with
  | this_connections => connections w
  | allocated n => nth n (maps w) JSMap.empty
  end.

Fixpoint list_update {A} (n : nat) (x : A) (l : list A) : list A :=
  match l, n with
  | [], _ => []
  | _ :: l', O => x :: l'
  | y :: l', S n' => y :: list_update n' x l'
  end.

Definition Map_write (r : MapRef) (m : JSMap.t Handle) (w : World) : World :=
  match r with
  | this_connections => with_connections m w
  | allocated n => with_maps (list_update n m (maps w)) w
  end.

(** [new Map()] *)
Definition new_Map : M MapRef :=
  fun w => (Normal (allocated (length (maps w))),
            with_maps (maps w ++ [JSMap.empty]) w).

Definition Map_has (r : MapRef) (k : string) : M bool :=
  fun w => (Normal (JSMap.has k (Map_read r w)), w).

(** [None] is [undefined]. *)
Definition Map_get (r : MapRef) (k : string) : M (option Handle) :=
  fun w => (Normal (JSMap.get k (Map_read r w)), w).

Definition Map_set (r : MapRef) (k : string) (v : Handle) : M unit :=
  fun w => (Normal tt, Map_write r (JSMap.set k v (Map_read r w)) w).

Definition Map_delete (r : MapRef) (k : string) : M unit :=
  fun w => (Normal tt, Map_write r (JSMap.delete k (Map_read r w)) w).

Definition Map_clear (r : MapRef) : M unit :=
  fun w => (Normal tt, Map_write r (JSMap.clear (Map_read r w)) w).

(** [for (const [key, connection] of map)].  No loop body below changes
    the map it iterates, so the entries are those present on entry. *)
Definition for_of (r : MapRef) (body : string -> Handle -> M unit) : M unit :=
  fun w => for_each (Map_read r w) (fun kv => body (fst kv) (snd kv)) w.

(** Reading a property of [undefined] throws a [TypeError]. *)
Definition TypeError_undefined : JSError :=
  mkError "Cannot read properties of undefined".

Definition object (connection : option Handle) : M Handle :=
  match connection with
  | Some c => ret c
  | None => throw TypeError_undefined
  end.

Definition connection_readyState (connection : Handle) : M Z :=
  fun w => (Normal (drv_readyState connection (driver w)), w).

Definition connection_host (connection : Handle) : M JSValue :=
  fun w => (Normal (drv_host connection (driver w)), w).

Definition connection_port (connection : Handle) : M JSValue :=
  fun w => (Normal (drv_port connection (driver w)), w).

Definition connection_name (connection : Handle) : M JSValue :=
  fun w => (Normal (drv_name connection (driver w)), w).

Definition connection_models (connection : Handle) : M (option (list string)) :=
  fun w => (Normal (drv_models connection (driver w)), w).

(** [mongoose.createConnection(connectionString, options)]: the request
    is recorded, the driver answers, the result is the settled promise. *)
Definition mongoose_createConnection
    (connectionString : string) (options : ConnectionOptions)
  : M (Completion Handle) :=
  fun w =>
    let w1 := with_calls (calls w ++ [call_createConnection connectionString options]) w in
    match drv_createConnection connectionString options (driver w) with
    | (inr connection, d) => (Normal (Normal connection), with_driver d w1)
    | (inl error, d) => (Normal (Throw error), with_driver d w1)
    end.

(** [connection.close()] *)
Definition connection_close (connection : Handle) : M (Completion unit) :=
  fun w =>
    let w1 := with_calls (calls w ++ [call_close connection]) w in
    match drv_close connection (driver w) with
    | (None, d) => (Normal (Normal tt), with_driver d w1)
    | (Some error, d) => (Normal (Throw error), with_driver d w1)
    end.

(** [connection.db.admin().ping()] *)
Definition connection_db_admin_ping (connection : Handle) : M (Completion unit) :=
  fun w =>
    let w1 := with_calls (calls w ++ [call_ping connection]) w in
    match drv_ping connection (driver w) with
    | (None, d) => (Normal (Normal tt), with_driver d w1)
    | (Some error, d) => (Normal (Throw error), with_driver d w1)
    end.

(** [connection.on(eventName, callback)] *)
Definition connection_on (connection : Handle) (eventName : string) (callback : Callback)
  : M unit :=
  fun w => (Normal tt,
            with_listeners (listeners w ++ [(connection, eventName, callback)]) w).

(** A reaction added to a promise by [.then(f)] or [.catch(g)].  The
    handlers of the class return [undefined], which is also what the
    promise of [close()] is fulfilled with, so a handler keeps the type of
    the value. *)
Inductive Reaction (A : Type) :=
| on_fulfilled (f : A -> M A)
| on_rejected (g : JSError -> M A).

Arguments on_fulfilled {A} f.
Arguments on_rejected {A} g.

(** The promise at the end of a chain [p.then(..).catch(..)] over a
    promise [p] that has settled: how the chain has settled so far, and the
    reactions that have not run yet, in the order they were added.  Each
    reaction is a job of the microtask queue; when it has run, the next
    one of the chain is queued behind the jobs already waiting. *)
Record Promise (A : Type) := mkPromise {
  settlement : Completion A;
  reactions : list (Reaction A)
}.

Arguments mkPromise {A} settlement reactions.
Arguments settlement {A} p.
Arguments reactions {A} p.

(** A promise that has settled, as the driver returns it. *)
Definition Promise_settled {A} (c : Completion A) : Promise A := mkPromise c [].

Definition Promise_then {A} (p : Promise A) (f : A -> M A) : Promise A :=
  mkPromise (settlement p) (reactions p ++ [on_fulfilled f]).

Definition Promise_catch {A} (p : Promise A) (g : JSError -> M A) : Promise A :=
  mkPromise (settlement p) (reactions p ++ [on_rejected g]).

(** One job: the first pending reaction of the chain.  A handler runs
    when the settlement is of its kind and its completion is the new
    settlement; otherwise the settlement passes through unchanged. *)
Definition run_reaction {A} (p : Promise A) : M (Promise A) :=
  match reactions p with
  | [] => ret p
  | r :: rest =>
      fun w =>
        match r, settlement p with
        | on_fulfilled f, Normal a =>
            match f a w with
            | (c, w') => (Normal (mkPromise c rest), w')
            end
        | on_rejected g, Throw e =>
            match g e w with
            | (c, w') => (Normal (mkPromise c rest), w')
            end
        | _, c => (Normal (mkPromise c rest), w)
        end
  end.

(** The jobs queued at one time, one per chain, run in the order of the
    chains. *)
Fixpoint run_jobs {A} (promises : list (Promise A)) : M (list (Promise A)) :=
  match promises with
  | [] => ret []
  | p :: rest =>
      p' <- run_reaction p ;;
      rest' <- run_jobs rest ;;
      ret (p' :: rest')
  end.

Fixpoint run_rounds {A} (rounds : nat) (promises : list (Promise A))
  : M (list (Promise A)) :=
  match rounds with
  | O => ret promises
  | S n =>
      promises' <- run_jobs promises ;;
      run_rounds n promises'
  end.

Definition longest_chain {A} (promises : list (Promise A)) : nat :=
  fold_right (fun p n => Nat.max (length (reactions p)) n) 0 promises.

(** The rejections among the settled chains, each with the round in which
    its chain settled. *)
Fixpoint rejections {A} (promises settled : list (Promise A)) : list (nat * JSError) :=
  match promises, settled with
  | p :: ps, p' :: ps' =>
      match settlement p' with
      | Throw e => (length (reactions p), e) :: rejections ps ps'
      | Normal _ => rejections ps ps'
      end
  | _, _ => []
  end.

Definition earliest_rejection (l : list (nat * JSError)) : option JSError :=
  option_map snd
    (fold_left
       (fun best x =>
          match best with
          | None => Some x
          | Some b => if (fst x <? fst b)%nat then Some x else Some b
          end)
       l None).

(** [await Promise.all(promises)] over chains whose first jobs are queued
    in array order: the jobs run round after round until every chain has
    settled, and the result is rejected with the rejection that came
    first. *)
Definition Promise_all (promises : list (Promise unit)) : M unit :=
  settled <- run_rounds (longest_chain promises) promises ;;
  match earliest_rejection (rejections promises settled) with
  | Some e => throw e
  | None => ret tt
  end.

(** *** The class *)

(** [constructor()], lines 13-31. *)
Definition new_ConnectionsContext (env : Env) (d : DriverState) : World :=
  {| connections := JSMap.empty;
     baseConnectionString :=
       js_or (MONGODB_URI env) "mongodb+srv://<username>:<password>@<cluster-url>";
     mainDbName := js_or (MAIN_DB_NAME env) "defaultDb";
     connectionOptions := mkOptions 10 5000 45000 false;
     listeners := [];
     maps := [];
     driver := d;
     calls := [];
     console := [] |}.

(** [setupConnectionListeners(connection, connectionKey)], lines 69-87. *)
Definition setupConnectionListeners (connection : Handle) (connectionKey : string)
  : M unit :=
  connection_on connection "connected" (cb_connected connectionKey) ;;
  connection_on connection "error" (cb_error connectionKey) ;;
  connection_on connection "disconnected" (cb_disconnected connectionKey) ;;
  connection_on connection "reconnected" (cb_reconnected connectionKey).

(** The bodies of the four listeners; [arg] is the argument the event was
    emitted with. *)
Definition run_callback (callback : Callback) (arg : option JSError) : M unit :=
  match callback with
  | cb_connected connectionKey =>
      console_log (log_database_connected connectionKey)
  | cb_error connectionKey =>
      console_error (error_database_error connectionKey arg) ;;
      Map_delete this_connections connectionKey
  | cb_disconnected connectionKey =>
      console_log (log_database_disconnected connectionKey) ;;
      Map_delete this_connections connectionKey
  | cb_reconnected connectionKey =>
      console_log (log_database_reconnected connectionKey)
  end.

Definition listens (connection : Handle) (eventName : string)
    (l : Handle * string * Callback) : bool :=
  (fst (fst l) =? connection)%nat && (snd (fst l) =? eventName)%string.

(** [connection.emit(eventName, arg)], performed by the driver: the
    listeners registered on that object for that event run in
    registration order. *)
Definition emit (connection : Handle) (eventName : string) (arg : option JSError)
  : M unit :=
  fun w =>
    for_each (filter (listens connection eventName) (listeners w))
             (fun l => run_callback (snd l) arg) w.

(** Local constants of [getConnection], lines 39, 49 and 50. *)
Definition connectionKey_of (tenantId : option string) : string :=
  js_or tenantId "main".

Definition dbName_of (tenantId : option string) (w : World) : string :=
  if truthy tenantId
  then mainDbName w ++ "_" ++ toString tenantId
  else mainDbName w.

Definition connectionString_of (tenantId : option string) (w : World) : string :=
  baseConnectionString w ++ "/" ++ dbName_of tenantId w.

(** Lines 42-46 of [getConnection]: [Some connection] is the early
    [return connection]. *)
Definition getConnection_cached (connectionKey : string) : M (option Handle) :=
  present <- Map_has this_connections connectionKey ;;
  if present : bool then
    found <- Map_get this_connections connectionKey ;;
    connection <- object found ;;
    state <- connection_readyState connection ;;
    if (state =? 1)%Z then ret (Some connection)
    else
      Map_delete this_connections connectionKey ;;
      ret None
  else ret None.

(** Lines 48-61 of [getConnection]. *)
Definition getConnection_connect (tenantId : option string) (connectionKey : string)
  : M Handle :=
  try_catch
    (fun w =>
       (let dbName := dbName_of tenantId w in
        let connectionString := connectionString_of tenantId w in
        promise <- mongoose_createConnection connectionString (connectionOptions w) ;;
        connection <- await promise ;;
        setupConnectionListeners connection connectionKey ;;
        Map_set this_connections connectionKey connection ;;
        console_log (log_connected_to_database dbName) ;;
        ret connection) w)
    (fun error =>
       console_error (error_failed_to_connect connectionKey error) ;;
       throw (mkError ("Database connection failed: " ++ message error))).

(** [getConnection(tenantId = null)], lines 38-62. *)
Definition getConnection (tenantId : option string) : M Handle :=
  let connectionKey := connectionKey_of tenantId in
  cached <- getConnection_cached connectionKey ;;
  match cached with
  | Some connection => ret connection
  | None => getConnection_connect tenantId connectionKey
  end.

(** [getActiveConnections()], lines 93-99. *)
Definition getActiveConnections : M MapRef :=
  active <- new_Map ;;
  for_of this_connections (fun key connection =>
    state <- connection_readyState connection ;;
    if (state =? 1)%Z then Map_set active key connection else ret tt) ;;
  ret active.

(** [closeConnection(tenantId = null)], lines 105-118. *)
Definition closeConnection (tenantId : option string) : M unit :=
  let connectionKey := connectionKey_of tenantId in
  present <- Map_has this_connections connectionKey ;;
  if negb present then ret tt
  else
    found <- Map_get this_connections connectionKey ;;
    try_finally
      (try_catch
         (connection <- object found ;;
          promise <- connection_close connection ;;
          await promise ;;
          console_log (log_closed_connection connectionKey))
         (fun error =>
            console_error (error_closing_connection connectionKey error)))
      (Map_delete this_connections connectionKey).

(** [closeAllConnections()], lines 123-137.  The loop sends every close
    request and collects the promises, each close being answered when it
    is requested; the reactions run as microtasks while [Promise.all] is
    awaited. *)
Definition closeAllConnections : M unit :=
  promises <-
    (fun w =>
       fold_each (Map_read this_connections w)
         (fun promises kv =>
            let key := fst kv in
            let connection := snd kv in
            closed <- connection_close connection ;;
            ret (promises ++
                 [Promise_catch
                    (Promise_then (Promise_settled closed)
                       (fun _ => console_log (log_closed_connection key)))
                    (fun error =>
                       console_error (error_closing_connection key error))]))
         [] w) ;;
  Promise_all promises ;;
  Map_clear this_connections ;;
  console_log log_all_closed.

(** [healthCheck()], lines 143-164.  [health] is a plain object; the
    connection keys are assigned as property names, whatever they are. *)
Definition healthCheck : M (JSObject.t HealthReport) :=
  fun w =>
    fold_each (Map_read this_connections w)
      (fun health kv =>
         let key := fst kv in
         let connection := snd kv in
         try_catch
           (promise <- connection_db_admin_ping connection ;;
            await promise ;;
            state <- connection_readyState connection ;;
            host <- connection_host connection ;;
            port <- connection_port connection ;;
            name <- connection_name connection ;;
            ret (JSObject.assign key (healthy state host port name) health))
           (fun error =>
              state <- connection_readyState connection ;;
              ret (JSObject.assign key (unhealthy (message error) state) health)))
      JSObject.empty w.

(** [getConnectionInfo(tenantId = null)], lines 171-184; [None] is the
    returned [null]. *)
Definition getConnectionInfo (tenantId : option string) : M (option ConnectionInfo) :=
  let connectionKey := connectionKey_of tenantId in
  found <- Map_get this_connections connectionKey ;;
  match found with
  | None => ret None
  | Some connection =>
      state <- connection_readyState connection ;;
      host <- connection_host connection ;;
      port <- connection_port connection ;;
      name <- connection_name connection ;;
      models <- connection_models connection ;;
      ret (Some (mkInfo connectionKey state host port name
                        (match models with
                         | Some names => names
                         | None => []
                         end)))
  end.

End ConnectionsContext.

Arguments on_fulfilled {D A} f.
Arguments on_rejected {D A} g.
Arguments mkPromise {D A} settlement reactions.
Arguments settlement {D A} p.
Arguments reactions {D A} p.

(** ** Runs of the program *)

Section Runs.
Context {D : Driver}.

(** What can happen to a context: a call of a public method, an event
    emitted by the driver on a connection object, a change of the
    driver's own state (a connection comes up or goes down), or a caller
    writing into a [Map] it obtained from [getActiveConnections]. *)
Inductive Step :=
| do_getConnection (tenantId : option string)
| do_getActiveConnections
| do_closeConnection (tenantId : option string)
| do_closeAllConnections
| do_healthCheck
| do_getConnectionInfo (tenantId : option string)
| do_emit (connection : Handle) (eventName : string) (arg : option JSError)
| do_driver (d : DriverState)
| do_caller_set (n : nat) (key : string) (connection : Handle)
| do_caller_delete (n : nat) (key : string)
| do_caller_clear (n : nat).

Definition step (s : Step) (w : World) : World :=
  match s with
  | do_getConnection tenantId => snd (getConnection tenantId w)
  | do_getActiveConnections => snd (getActiveConnections w)
  | do_closeConnection tenantId => snd (closeConnection tenantId w)
  | do_closeAllConnections => snd (closeAllConnections w)
  | do_healthCheck => snd (healthCheck w)
  | do_getConnectionInfo tenantId => snd (getConnectionInfo tenantId w)
  | do_emit connection eventName arg => snd (emit connection eventName arg w)
  | do_driver d => with_driver d w
  | do_caller_set n key connection => snd (Map_set (allocated n) key connection w)
  | do_caller_delete n key => snd (Map_delete (allocated n) key w)
  | do_caller_clear n => snd (Map_clear (allocated n) w)
  end.

Definition run (steps : list Step) (w : World) : World :=
  fold_left (fun w s => step s w) steps w.

(** The states of a context created by the constructor. *)
Inductive reachable : World -> Prop :=
| reachable_new env d : reachable (new_ConnectionsContext env d)
| reachable_step s w : reachable w -> reachable (step s w).

(** Every cached connection carries the two evicting listeners of its
    key. *)
Definition listeners_installed (w : World) : Prop :=
  forall key connection,
    In (key, connection) (connections w) ->
    In (connection, "error", cb_error key) (listeners w) /\
    In (connection, "disconnected", cb_disconnected key) (listeners w).

(** The invariant of the reachable states. *)
Definition Inv (w : World) : Prop :=
  JSMap.wf (connections w) /\ listeners_installed w.

(** The key a callback removes from [this.connections], if any. *)
Definition evicts (callback : Callback) : option string :=
  match callback with
  | cb_error key => Some key
  | cb_disconnected key => Some key
  | cb_connected _ => None
  | cb_reconnected _ => None
  end.

Definition callback_line (callback : Callback) (arg : option JSError) : ConsoleLine :=
  match callback with
  | cb_connected key => log_database_connected key
  | cb_error key => error_database_error key arg
  | cb_disconnected key => log_database_disconnected key
  | cb_reconnected key => log_database_reconnected key
  end.

Definition evict_all (callbacks : list Callback) (m : JSMap.t Handle) : JSMap.t Handle :=
  fold_left
    (fun m callback =>
       match evicts callback with
       | Some key => JSMap.delete key m
       | None => m
       end)
    callbacks m.

(** The four registrations of [setupConnectionListeners]. *)
Definition installed (connection : Handle) (key : string)
  : list (Handle * string * Callback) :=
  [(connection, "connected", cb_connected key);
   (connection, "error", cb_error key);
   (connection, "disconnected", cb_disconnected key);
   (connection, "reconnected", cb_reconnected key)].

(** The line logged for a close request, by its answer. *)
Definition closing_line (key : string) (answer : option JSError) : ConsoleLine :=
  match answer with
  | None => log_closed_connection key
  | Some error => error_closing_connection key error
  end.

(** The driver's answers to close requests sent for the entries in
    order, and the state the driver is left in. *)
Fixpoint close_answers (entries : JSMap.t Handle) (d : DriverState)
  : list ConsoleLine * DriverState :=
  match entries with
  | [] => ([], d)
  | (key, connection) :: rest =>
      let (answer, d1) := drv_close connection d in
      let (lines, d2) := close_answers rest d1 in
      (closing_line key answer :: lines, d2)
  end.

(** The entries [getActiveConnections] keeps. *)
Definition ready (d : DriverState) (kv : string * Handle) : bool :=
  (drv_readyState (snd kv) d =? 1)%Z.

(** A cache miss: the block of lines 42-46 falls through to the [try]. *)
Definition cache_miss (tenantId : option string) (w : World) : Prop :=
  fst (getConnection_cached (connectionKey_of tenantId) w) = Normal None.

(** The state in which the connection attempt starts. *)
Definition after_lookup (tenantId : option string) (w : World) : World :=
  snd (getConnection_cached (connectionKey_of tenantId) w).

(** The report [healthCheck] writes for a connection, given the answer
    to the ping and the driver state the answer left. *)
Definition report_of (connection : Handle) (answer : option JSError) (d : DriverState)
  : HealthReport :=
  match answer with
  | None =>
      healthy (drv_readyState connection d) (drv_host connection d)
              (drv_port connection d) (drv_name connection d)
  | Some error => unhealthy (message error) (drv_readyState connection d)
  end.

(** The reports written for the entries in order, each connection being
    pinged in turn from driver state [d], and the state the driver is left
    in. *)
Fixpoint reports_of (entries : JSMap.t Handle) (d : DriverState)
  : list (string * HealthReport) * DriverState :=
  match entries with
  | [] => ([], d)
  | (key, connection) :: rest =>
      let (answer, d1) := drv_ping connection d in
      let (reports, d2) := reports_of rest d1 in
      ((key, report_of connection answer d1) :: reports, d2)
  end.

(** The driver state after the entries have been pinged in order. *)
Definition pinged (entries : JSMap.t Handle) (d : DriverState) : DriverState :=
  snd (reports_of entries d).

(** The object after a sequence of assignments. *)
Definition assign_all (reports : list (string * HealthReport))
    (health : JSObject.t HealthReport) : JSObject.t HealthReport :=
  fold_left (fun o kr => JSObject.assign (fst kr) (snd kr) o) reports health.

(** The answers to the close requests sent for the entries in order, by
    key, and the state the driver is left in. *)
Fixpoint close_results (entries : JSMap.t Handle) (d : DriverState)
  : list (string * option JSError) * DriverState :=
  match entries with
  | [] => ([], d)
  | (key, connection) :: rest =>
      let (answer, d1) := drv_close connection d in
      let (results, d2) := close_results rest d1 in
      ((key, answer) :: results, d2)
  end.

(** The promise [closeAllConnections] pushes for a close request answered
    by [answer]. *)
Definition closing (key : string) (answer : option JSError) : Promise unit :=
  Promise_catch
    (Promise_then
       (Promise_settled match answer with
                        | None => Normal tt
                        | Some error => Throw error
                        end)
       (fun _ => console_log (log_closed_connection key)))
    (fun error => console_error (error_closing_connection key error)).

(** The lines of the closes that succeeded, and of those that failed. *)
Definition closed_lines (results : list (string * option JSError)) : list ConsoleLine :=
  flat_map
    (fun ka => match snd ka with
               | None => [log_closed_connection (fst ka)]
               | Some _ => []
               end)
    results.

Definition failed_lines (results : list (string * option JSError)) : list ConsoleLine :=
  flat_map
    (fun ka => match snd ka with
               | None => []
               | Some error => [error_closing_connection (fst ka) error]
               end)
    results.

(** The database name as the specification words it: chosen by the
    resolved key. *)
Definition spec_databaseName (tenantId : option string) (w : World) : string :=
  if (connectionKey_of tenantId =? "main")%string
  then mainDbName w
  else mainDbName w ++ "_" ++ connectionKey_of tenantId.

(** An error carries a text when the text occurs in its message. *)
Definition carries (e : JSError) (text : string) : bool :=
  match String.index 0 text (message e) with
  | Some _ => true
  | None => false
  end.

End Runs.

(** ** A scriptable driver *)

Module Mock.

(** [opened]: the connection strings of the connections created so far,
    a handle being an index into it.  [refused]: the connection strings
    the cluster rejects.  [down]: the connections that are not ready;
    closing or pinging one of them is rejected. *)
Record State := mkState {
  opened : list string;
  refused : list string;
  down : list Handle
}.

Definition is_down (h : Handle) (d : State) : bool :=
  existsb (Nat.eqb h) (down d).

Definition createConnection (s : string) (o : ConnectionOptions) (d : State)
  : (JSError + Handle) * State :=
  if existsb (String.eqb s) (refused d)
  then (inl (mkError "ECONNREFUSED"), d)
  else (inr (length (opened d)), mkState (opened d ++ [s]) (refused d) (down d)).

Definition close (h : Handle) (d : State) : option JSError * State :=
  if is_down h d
  then (Some (mkError "connection is not open"), d)
  else (None, mkState (opened d) (refused d) (h :: down d)).

Definition ping (h : Handle) (d : State) : option JSError * State :=
  if is_down h d
  then (Some (mkError "ping timed out"), d)
  else (None, d).

Definition readyState (h : Handle) (d : State) : Z :=
  if is_down h d then 0%Z
  else if (h <? length (opened d))%nat then 1%Z else 0%Z.

Definition name (h : Handle) (d : State) : JSValue :=
  match nth_error (opened d) h with
  | Some s => JSString s
  | None => JSUndefined
  end.

Definition initial : State := mkState [] [] [].

End Mock.

Definition MockDriver : Driver := {|
  DriverState := Mock.State;
  drv_createConnection := Mock.createConnection;
  drv_close := Mock.close;
  drv_ping := Mock.ping;
  drv_readyState := Mock.readyState;
  drv_host := fun _ _ => JSString "cluster";
  drv_port := fun _ _ => JSNumber 27017;
  drv_name := Mock.name;
  drv_models := fun _ _ => Some []
|}.

(** The scenario of the specification: base address
    [mongodb+srv://cluster], default database [app]. *)
Definition scenario_env : Env :=
  mkEnv (Some "mongodb+srv://cluster") (Some "app").

(** The options the constructor sets. *)
Definition scenario_options : ConnectionOptions := mkOptions 10 5000 45000 false.

Definition scenario (d : Mock.State) : @World MockDriver :=
  new_ConnectionsContext (D := MockDriver) scenario_env d.

(** The scenario after [getConnection("t1")] succeeded. *)
Definition scenario_t1 : @World MockDriver := Eval vm_compute in
  step (do_getConnection (Some "t1")) (scenario Mock.initial).

(** The scenario after [getConnection("t1")] succeeded and the connection
    went down without any event reaching the listeners. *)
Definition scenario_t1_down : @World MockDriver := Eval vm_compute in
  step (do_driver (D := MockDriver)
          (Mock.mkState ["mongodb+srv://cluster/app_t1"] [] [0]))
       scenario_t1.

(** A cluster that refuses the databases of tenants [t1] and [t2]. *)
Definition scenario_refusing : @World MockDriver := Eval vm_compute in
  scenario (Mock.mkState []
              ["mongodb+srv://cluster/app_t1"; "mongodb+srv://cluster/app_t2"] []).

(** Three tenants connected, the second one down. *)
Definition scenario_three : @World MockDriver := Eval vm_compute in
  run [do_getConnection (Some "t1"); do_getConnection (Some "t2");
       do_getConnection (Some "t3");
       do_driver (D := MockDriver)
         (Mock.mkState ["mongodb+srv://cluster/app_t1";
                        "mongodb+srv://cluster/app_t2";
                        "mongodb+srv://cluster/app_t3"] [] [1])]
      (scenario Mock.initial).

(** ** The suspension point of [getConnection], and the process *)

Section Process.
Context {D : Driver}.

(** A call of [getConnection] suspended at the [await] of line 52: the
    promise it waits for and the constants of the call. *)
Record Pending := mkPending {
  pending_promise : Completion Handle;
  pending_connectionKey : string;
  pending_dbName : string
}.

(** [getConnection] from its entry to the [await] of line 52: the early
    [return] of line 44 ([inl]), or the request sent and the call
    suspended ([inr]). *)
Definition getConnection_request (tenantId : option string) : M (Handle + Pending) :=
  let connectionKey := connectionKey_of tenantId in
  cached <- getConnection_cached connectionKey ;;
  match cached with
  | Some connection => ret (inl connection)
  | None =>
      fun w =>
        (let dbName := dbName_of tenantId w in
         let connectionString := connectionString_of tenantId w in
         promise <- mongoose_createConnection connectionString (connectionOptions w) ;;
         ret (inr (mkPending promise connectionKey dbName))) w
  end.

(** [getConnection] from the [await] of line 52 on, lines 52-61. *)
Definition getConnection_resume (pending : Pending) : M Handle :=
  try_catch
    (connection <- await (pending_promise pending) ;;
     setupConnectionListeners connection (pending_connectionKey pending) ;;
     Map_set this_connections (pending_connectionKey pending) connection ;;
     console_log (log_connected_to_database (pending_dbName pending)) ;;
     ret connection)
    (fun error =>
       console_error (error_failed_to_connect (pending_connectionKey pending) error) ;;
       throw (mkError ("Database connection failed: " ++ message error))).

(** The event a callback of [setupConnectionListeners] is registered
    for. *)
Definition event_of (callback : Callback) : string :=
  match callback with
  | cb_connected _ => "connected"
  | cb_error _ => "error"
  | cb_disconnected _ => "disconnected"
  | cb_reconnected _ => "reconnected"
  end.

(** Every listener is registered for the event of its callback. *)
Definition listeners_named (w : World) : Prop :=
  forall l, In l (listeners w) -> snd (fst l) = event_of (snd l).

(** Every cached connection carries the four listeners of its key. *)
Definition fully_installed (w : World) : Prop :=
  forall key connection,
    In (key, connection) (connections w) ->
    incl (installed connection key) (listeners w).

(** The steps that are calls of a method of the class or events of the
    driver, as opposed to callers writing into a [Map] they hold. *)
Definition is_caller_write (s : Step) : bool :=
  match s with
  | do_caller_set _ _ _ => true
  | do_caller_delete _ _ => true
  | do_caller_clear _ => true
  | _ => false
  end.

(** Two states that differ at most in the [Map] objects handed out. *)
Definition same_but_maps (w w' : World) : Prop :=
  connections w' = connections w
  /\ baseConnectionString w' = baseConnectionString w
  /\ mainDbName w' = mainDbName w
  /\ connectionOptions w' = connectionOptions w
  /\ listeners w' = listeners w
  /\ driver w' = driver w
  /\ calls w' = calls w
  /\ console w' = console w.

(** The invariant of the reachable states, in full. *)
Definition well_formed (w : World) : Prop :=
  JSMap.wf (connections w)
  /\ (forall key, In key (JSMap.keys (connections w)) -> key <> "")
  /\ fully_installed w
  /\ listeners_named w.

(** The two signals a handler is registered for, lines 191 and 197. *)
Inductive Signal :=
| SIGINT
| SIGTERM.

(** The process around the singleton of line 188.  [announced] keeps the
    banners the handlers have written, each one written to the console
    before the lines of the [closeAllConnections] that follows it;
    [exitCode] is set by [process.exit]. *)
Record Process := mkProcess {
  connectionsContext : World;
  announced : list Signal;
  exitCode : option Z
}.

(** The module body, lines 187-203. *)
Definition start_process (env : Env) (d : DriverState) : Process :=
  mkProcess (new_ConnectionsContext env d) [] None.

(** The handlers of lines 191-195 and 197-201: banner, [await
    closeAllConnections()], [process.exit(0)].  When the awaited call
    throws, the handler ends there and [process.exit] is not reached.  A
    process that has exited handles nothing. *)
Definition on_signal (signal : Signal) (p : Process) : Process :=
  match exitCode p with
  | Some _ => p
  | None =>
      match closeAllConnections (connectionsContext p) with
      | (Normal _, w) => mkProcess w (announced p ++ [signal]) (Some 0%Z)
      | (Throw _, w) => mkProcess w (announced p ++ [signal]) None
      end
  end.

End Process.

(** [t1] connected, its connection went down unnoticed, and a second
    [getConnection("t1")] replaced it: connection [1] is cached, connection
    [0] is dropped but keeps its listeners. *)
Definition scenario_replaced : @World MockDriver := Eval vm_compute in
  step (do_getConnection (Some "t1")) scenario_t1_down.

(** The default database connected. *)
Definition scenario_main : @World MockDriver := Eval vm_compute in
  step (do_getConnection None) (scenario Mock.initial).

(** Three tenants connected, the second one down, and a snapshot taken
    by [getActiveConnections]. *)
Definition scenario_snapshot : @World MockDriver := Eval vm_compute in
  step do_getActiveConnections scenario_three.


(** * Properties *)

(** ** Facts about the Map *)

Module JSMapFacts.
Import JSMap.

Section Facts.
Context {V : Type}.
Implicit Types (m : JSMap.t V) (k : string) (v : V).

Lemma get_In k v m : get k m = Some v -> In (k, v) m.
Proof.
induction m as [|[k' v'] m IH]; simpl; [discriminate|].
destruct (String.eqb_spec k' k) as [->|_].
- intros [= ->]. now left.
- intros H. right. now apply IH.
Qed.

Lemma get_None_keys k m : get k m = None <-> ~ In k (keys m).
Proof.
induction m as [|[k' v'] m IH]; simpl.
- tauto.
- destruct (String.eqb_spec k' k) as [->|Hne].
  + split; [discriminate|]. intros H. exfalso. apply H. now left.
  + rewrite IH. split.
    * intros H [H1|H1]; [now apply Hne | now apply H].
    * intros H H1. apply H. now right.
Qed.

Lemma In_get k v m : wf m -> In (k, v) m -> get k m = Some v.
Proof.
unfold wf.
induction m as [|[k' v'] m IH]; simpl; [tauto|].
intros Hnd [Heq|Hin].
- injection Heq as -> ->. now rewrite String.eqb_refl.
- inversion Hnd as [|? ? Hnotin Hnd']; subst.
  destruct (String.eqb_spec k' k) as [->|_].
  + exfalso. apply Hnotin. change k with (fst (k, v)). now apply in_map.
  + now apply IH.
Qed.

Lemma get_set_same k v m : get k (set k v m) = Some v.
Proof.
induction m as [|[k' v'] m IH]; simpl.
- now rewrite String.eqb_refl.
- destruct (String.eqb_spec k' k) as [->|Hne]; simpl.
  + now rewrite String.eqb_refl.
  + destruct (String.eqb_spec k' k); [contradiction|exact IH].
Qed.

Lemma get_set_other k k' v m : k' <> k -> get k' (set k v m) = get k' m.
Proof.
intros Hne.
induction m as [|[k0 v0] m IH]; simpl.
- destruct (String.eqb_spec k k'); [congruence|reflexivity].
- destruct (String.eqb_spec k0 k) as [->|Hne0]; simpl.
  + destruct (String.eqb_spec k k'); [congruence|reflexivity].
  + destruct (String.eqb_spec k0 k'); [reflexivity|exact IH].
Qed.

Lemma keys_delete_incl k m : incl (keys (delete k m)) (keys m).
Proof.
induction m as [|[k' v'] m IH]; simpl.
- apply incl_refl.
- destruct (k' =? k); simpl.
  + apply incl_tl, incl_refl.
  + intros x [->|Hx]; [now left | right; now apply IH].
Qed.

Lemma delete_In x k m : In x (delete k m) -> In x m.
Proof.
induction m as [|[k' v'] m IH]; simpl; [tauto|].
destruct (k' =? k); simpl.
- now right.
- intros [->|Hx]; [now left | right; now apply IH].
Qed.

Lemma wf_delete k m : wf m -> wf (delete k m).
Proof.
unfold wf.
induction m as [|[k' v'] m IH]; simpl; [trivial|].
intros Hnd. inversion Hnd as [|? ? Hnotin Hnd']; subst.
destruct (k' =? k); simpl; [assumption|].
constructor; [|now apply IH].
intros Hin. apply Hnotin. now apply (keys_delete_incl k m).
Qed.

Lemma get_delete_same k m : wf m -> get k (delete k m) = None.
Proof.
unfold wf.
induction m as [|[k' v'] m IH]; simpl; [reflexivity|].
intros Hnd. inversion Hnd as [|? ? Hnotin Hnd']; subst.
destruct (String.eqb_spec k' k) as [->|Hne]; simpl.
- now apply get_None_keys.
- destruct (String.eqb_spec k' k); [contradiction|now apply IH].
Qed.

Lemma get_delete_other k k' m : k' <> k -> get k' (delete k m) = get k' m.
Proof.
intros Hne.
induction m as [|[k0 v0] m IH]; simpl; [reflexivity|].
destruct (String.eqb_spec k0 k) as [->|Hne0]; simpl.
- destruct (String.eqb_spec k k'); [congruence|reflexivity].
- destruct (String.eqb_spec k0 k'); [reflexivity|exact IH].
Qed.

Lemma delete_absent k m : get k m = None -> delete k m = m.
Proof.
induction m as [|[k' v'] m IH]; simpl; [reflexivity|].
destruct (k' =? k); [discriminate|].
intros H. now rewrite IH.
Qed.

Lemma keys_set k v m :
keys (set k v m) = if has k m then keys m else keys m ++ [k].
Proof.
unfold has.
induction m as [|[k' v'] m IH]; simpl; [reflexivity|].
destruct (String.eqb_spec k' k) as [->|Hne]; simpl; [reflexivity|].
rewrite IH. now destruct (get k m).
Qed.

Lemma wf_set k v m : wf m -> wf (set k v m).
Proof.
unfold wf. intros Hnd. rewrite keys_set. unfold has.
destruct (get k m) eqn:E; [assumption|].
apply get_None_keys in E.
induction (keys m) as [|x l IH]; simpl.
- constructor; [intros []|constructor].
- inversion Hnd as [|? ? Hx Hl]; subst.
  constructor.
  + rewrite in_app_iff. intros [H|[H|[]]]; [now apply Hx|].
    apply E. now left.
  + apply IH; [assumption|]. intros H. apply E. now right.
Qed.

Lemma set_In x k v m : In x (set k v m) -> x = (k, v) \/ In x m.
Proof.
induction m as [|[k' v'] m IH]; simpl.
- intros [<-|[]]. now left.
- destruct (k' =? k); simpl.
  + intros [<-|Hx]; [now left | right; now right].
  + intros [<-|Hx]; [right; now left|].
    destruct (IH Hx) as [->|H1]; [now left | right; now right].
Qed.

Lemma wf_empty : wf (@empty V).
Proof. constructor. Qed.

Lemma get_delete_None k k' m : get k m = None -> get k (delete k' m) = None.
Proof.
rewrite !get_None_keys. intros H Hin. apply H.
now apply (keys_delete_incl k' m).
Qed.

Lemma set_absent k v m : get k m = None -> set k v m = m ++ [(k, v)].
Proof.
induction m as [|[k' v'] m IH]; simpl; [reflexivity|].
destruct (k' =? k); [discriminate|].
intros H. now rewrite IH.
Qed.

Lemma has_true_get k m : has k m = true -> exists v, get k m = Some v.
Proof.
unfold has. destruct (get k m) as [v|]; [now exists v | discriminate].
Qed.

Lemma In_keys k v m : In (k, v) m -> In k (keys m).
Proof.
intros H. change k with (fst (k, v)). now apply in_map.
Qed.

End Facts.

End JSMapFacts.

(** ** The methods, statement by statement *)

Section Equations.
Context {D : Driver}.
Implicit Types (w : World) (tenantId : option string) (key : string).

Lemma getConnection_cached_eq key w :
  getConnection_cached key w =
  match JSMap.get key (connections w) with
  | Some connection =>
      if (drv_readyState connection (driver w) =? 1)%Z
      then (Normal (Some connection), w)
      else (Normal None, with_connections (JSMap.delete key (connections w)) w)
  | None => (Normal None, w)
  end.
Proof.
  cbv [getConnection_cached bind Map_has Map_get JSMap.has Map_read object ret
       connection_readyState Map_delete Map_write].
  destruct (JSMap.get key (connections w)) as [c|] eqn:E; [|reflexivity].
  cbv beta iota. rewrite E.
  destruct (drv_readyState c (driver w) =? 1)%Z; reflexivity.
Qed.

Lemma getConnection_connect_eq tenantId key w :
  getConnection_connect tenantId key w =
  let request :=
    call_createConnection (connectionString_of tenantId w) (connectionOptions w) in
  match drv_createConnection (connectionString_of tenantId w)
                             (connectionOptions w) (driver w) with
  | (inr connection, d) =>
      (Normal connection,
       mkWorld (JSMap.set key connection (connections w))
               (baseConnectionString w) (mainDbName w) (connectionOptions w)
               (listeners w ++ installed connection key) (maps w) d
               (calls w ++ [request])
               (console w ++ [log_connected_to_database (dbName_of tenantId w)]))
  | (inl error, d) =>
      (Throw (mkError ("Database connection failed: " ++ message error)),
       mkWorld (connections w)
               (baseConnectionString w) (mainDbName w) (connectionOptions w)
               (listeners w) (maps w) d
               (calls w ++ [request])
               (console w ++ [error_failed_to_connect key error]))
  end.
Proof.
  cbv beta zeta delta [getConnection_connect try_catch bind mongoose_createConnection].
  destruct (drv_createConnection _ _ _) as [[error|connection] d].
  - reflexivity.
  - cbv beta iota zeta delta
      [await setupConnectionListeners connection_on bind Map_set Map_write
       Map_read console_log ret with_console with_listeners with_connections
       with_calls with_driver installed
       connections baseConnectionString mainDbName connectionOptions listeners
       maps driver calls console].
    now rewrite <- !app_assoc.
Qed.

Lemma getConnection_eq tenantId w :
  getConnection tenantId w =
  match getConnection_cached (connectionKey_of tenantId) w with
  | (Normal (Some connection), w1) => (Normal connection, w1)
  | (Normal None, w1) => getConnection_connect tenantId (connectionKey_of tenantId) w1
  | (Throw e, w1) => (Throw e, w1)
  end.
Proof.
  unfold getConnection, bind.
  destruct (getConnection_cached _ w) as [[[c|]|e] w1]; reflexivity.
Qed.

End Equations.

Section MoreEquations.
Context {D : Driver}.
Implicit Types (w : World) (tenantId : option string) (key : string).

Lemma run_callback_eq callback arg w :
  run_callback callback arg w =
  (Normal tt,
   mkWorld (evict_all [callback] (connections w))
           (baseConnectionString w) (mainDbName w) (connectionOptions w)
           (listeners w) (maps w) (driver w) (calls w)
           (console w ++ [callback_line callback arg])).
Proof. destruct callback; reflexivity. Qed.

Lemma for_each_callbacks (ls : list (Handle * string * Callback)) arg w :
  for_each ls (fun l => run_callback (snd l) arg) w =
  (Normal tt,
   mkWorld (evict_all (map snd ls) (connections w))
           (baseConnectionString w) (mainDbName w) (connectionOptions w)
           (listeners w) (maps w) (driver w) (calls w)
           (console w ++ map (fun l => callback_line (snd l) arg) ls)).
Proof.
  revert w. induction ls as [|l ls IH]; intros w; simpl.
  - rewrite app_nil_r. now destruct w.
  - unfold bind. rewrite run_callback_eq, IH. simpl.
    now rewrite <- app_assoc.
Qed.

Lemma emit_eq connection eventName arg w :
  emit connection eventName arg w =
  let ls := filter (listens connection eventName) (listeners w) in
  (Normal tt,
   mkWorld (evict_all (map snd ls) (connections w))
           (baseConnectionString w) (mainDbName w) (connectionOptions w)
           (listeners w) (maps w) (driver w) (calls w)
           (console w ++ map (fun l => callback_line (snd l) arg) ls)).
Proof. unfold emit. apply for_each_callbacks. Qed.

Lemma closeConnection_eq tenantId w :
  closeConnection tenantId w =
  let key := connectionKey_of tenantId in
  match JSMap.get key (connections w) with
  | None => (Normal tt, w)
  | Some connection =>
      let (answer, d) := drv_close connection (driver w) in
      (Normal tt,
       mkWorld (JSMap.delete key (connections w))
               (baseConnectionString w) (mainDbName w) (connectionOptions w)
               (listeners w) (maps w) d
               (calls w ++ [call_close connection])
               (console w ++ [closing_line key answer]))
  end.
Proof.
  cbv [closeConnection bind Map_has Map_get JSMap.has Map_read].
  destruct (JSMap.get (connectionKey_of tenantId) (connections w)) as [c|] eqn:E;
    [|reflexivity].
  cbv [negb try_finally try_catch bind object ret connection_close].
  rewrite E.
  destruct (drv_close c (driver w)) as [[error|] d]; reflexivity.
Qed.

Lemma getConnectionInfo_eq tenantId w :
  getConnectionInfo tenantId w =
  let key := connectionKey_of tenantId in
  (Normal
     match JSMap.get key (connections w) with
     | None => None
     | Some connection =>
         Some (mkInfo key
                      (drv_readyState connection (driver w))
                      (drv_host connection (driver w))
                      (drv_port connection (driver w))
                      (drv_name connection (driver w))
                      match drv_models connection (driver w) with
                      | Some names => names
                      | None => []
                      end)
     end, w).
Proof.
  cbv [getConnectionInfo bind Map_get Map_read].
  destruct (JSMap.get (connectionKey_of tenantId) (connections w)); reflexivity.
Qed.

End MoreEquations.

Section Loops.
Context {D : Driver}.
Implicit Types (w : World) (key : string).

Lemma with_console_id w : with_console (console w) w = w.
Proof. now destruct w. Qed.

Lemma close_results_lines (entries : JSMap.t Handle) d :
  fst (close_answers entries d) =
  map (fun ka => closing_line (fst ka) (snd ka)) (fst (close_results entries d))
  /\ snd (close_answers entries d) = snd (close_results entries d).
Proof.
  revert d. induction entries as [|[key c] rest IH]; intros d; [now split|].
  cbn [close_answers close_results].
  destruct (drv_close c d) as [answer d1]. specialize (IH d1).
  destruct (close_answers rest d1) as [lines d2].
  destruct (close_results rest d1) as [results d3].
  cbn in *. destruct IH as [-> ->]. now split.
Qed.

(** The first round of jobs: the closes that succeeded are logged, the
    rejections pass on to the next reaction. *)
Lemma closing_first_round (results : list (string * option JSError)) :
  forall w,
    run_jobs (map (fun ka => closing (fst ka) (snd ka)) results) w =
    (Normal
       (map (fun ka =>
               mkPromise
                 (match snd ka with
                  | None => Normal tt
                  | Some error => Throw error
                  end)
                 [on_rejected
                    (fun error =>
                       console_error (error_closing_connection (fst ka) error))])
            results),
     with_console (console w ++ closed_lines results) w).
Proof.
  induction results as [|[key [error|]] rest IH]; intros w.
  - cbn. now rewrite app_nil_r, with_console_id.
  - cbn [map run_jobs fst snd]. unfold bind at 1.
    cbv beta iota zeta delta
      [closing Promise_catch Promise_then Promise_settled run_reaction
       settlement reactions app].
    unfold bind at 1. rewrite IH. reflexivity.
  - cbn [map run_jobs fst snd]. unfold bind at 1.
    cbv beta iota zeta delta
      [closing Promise_catch Promise_then Promise_settled run_reaction
       settlement reactions app console_log].
    unfold bind at 1. rewrite IH.
    cbn. unfold with_console. cbn. now rewrite <- app_assoc.
Qed.

(** The second round: the closes that failed are logged. *)
Lemma closing_second_round (results : list (string * option JSError)) :
  forall w,
    run_jobs
      (map (fun ka =>
              mkPromise
                (match snd ka with
                 | None => Normal tt
                 | Some error => Throw error
                 end)
                [on_rejected
                   (fun error =>
                      console_error (error_closing_connection (fst ka) error))])
           results) w =
    (Normal (map (fun _ => mkPromise (Normal tt) []) results),
     with_console (console w ++ failed_lines results) w).
Proof.
  induction results as [|[key [error|]] rest IH]; intros w.
  - cbn. now rewrite app_nil_r, with_console_id.
  - cbn [map run_jobs fst snd]. unfold bind at 1.
    cbv beta iota zeta delta [run_reaction settlement reactions console_error].
    unfold bind at 1. rewrite IH.
    cbn. unfold with_console. cbn. now rewrite <- app_assoc.
  - cbn [map run_jobs fst snd]. unfold bind at 1.
    cbv beta iota zeta delta [run_reaction settlement reactions].
    unfold bind at 1. rewrite IH. reflexivity.
Qed.

Lemma closing_longest_chain (results : list (string * option JSError)) :
  longest_chain (map (fun ka => closing (fst ka) (snd ka)) results) =
  match results with
  | [] => 0
  | _ :: _ => 2
  end.
Proof.
  induction results as [|ka rest IH]; [reflexivity|].
  change (longest_chain (map (fun ka => closing (fst ka) (snd ka)) (ka :: rest)))
    with (Nat.max 2 (longest_chain (map (fun ka => closing (fst ka) (snd ka)) rest))).
  rewrite IH. now destruct rest.
Qed.

Lemma no_rejections {A} (promises : list (Promise unit)) (l : list A) :
  rejections promises (map (fun _ => mkPromise (Normal tt) []) l) = [].
Proof.
  revert promises. induction l as [|x l IH]; intros [|p ps]; try reflexivity.
  cbn. apply IH.
Qed.

(** [Promise.all] over the promises of [closeAllConnections]: the lines
    of the closes that succeeded come first, then those of the failures,
    and it is fulfilled. *)
Lemma Promise_all_closing (results : list (string * option JSError)) w :
  Promise_all (map (fun ka => closing (fst ka) (snd ka)) results) w =
  (Normal tt,
   with_console (console w ++ closed_lines results ++ failed_lines results) w).
Proof.
  unfold Promise_all. rewrite closing_longest_chain.
  destruct results as [|ka rest].
  - cbn. now rewrite app_nil_r, with_console_id.
  - cbn [run_rounds]. unfold bind at 1. unfold bind at 1.
    rewrite closing_first_round. unfold bind at 1.
    rewrite closing_second_round. unfold ret at 1.
    rewrite no_rejections. cbn.
    unfold with_console. cbn. now rewrite <- app_assoc.
Qed.

(** The loop of [closeAllConnections], for any body that sends one close
    request per entry and pushes the promise of its answer. *)
Lemma close_requests
    (body : list (Promise unit) -> string * Handle -> M (list (Promise unit)))
    (Hbody : forall acc kv w,
        body acc kv w =
        let (answer, d1) := drv_close (snd kv) (driver w) in
        (Normal (acc ++ [closing (fst kv) answer]),
         with_driver d1 (with_calls (calls w ++ [call_close (snd kv)]) w)))
    (entries : JSMap.t Handle) :
  forall acc w,
    fold_each entries body acc w =
    (Normal (acc ++ map (fun ka => closing (fst ka) (snd ka))
                        (fst (close_results entries (driver w)))),
     with_driver (snd (close_results entries (driver w)))
       (with_calls (calls w ++ map (fun kv => call_close (snd kv)) entries) w)).
Proof.
  induction entries as [|[key connection] rest IH]; intros acc w.
  - simpl. rewrite !app_nil_r. now destruct w.
  - cbn [fold_each close_results]. unfold bind at 1. rewrite Hbody.
    cbn [fst snd].
    destruct (drv_close connection (driver w)) as [answer d1].
    rewrite IH. cbn [driver with_driver].
    destruct (close_results rest d1) as [results d2]. simpl.
    now rewrite <- !app_assoc.
Qed.

Lemma closeAllConnections_eq w :
  closeAllConnections w =
  let results := fst (close_results (connections w) (driver w)) in
  (Normal tt,
   mkWorld JSMap.empty
           (baseConnectionString w) (mainDbName w) (connectionOptions w)
           (listeners w) (maps w)
           (snd (close_results (connections w) (driver w)))
           (calls w ++ map (fun kv => call_close (snd kv)) (connections w))
           (console w ++ (closed_lines results ++ failed_lines results)
              ++ [log_all_closed])).
Proof.
  unfold closeAllConnections. unfold bind at 1.
  match goal with
  | |- context [fold_each _ ?body _ _] =>
      pose proof (close_requests body) as Hloop
  end.
  cbn [Map_read]. rewrite Hloop.
  - cbn [app]. unfold bind. rewrite Promise_all_closing. cbn.
    unfold console_log, with_console. cbn. now rewrite <- app_assoc.
  - intros acc kv w'. cbv beta zeta. unfold bind, connection_close.
    destruct (drv_close (snd kv) (driver w')) as [[error|] d1]; reflexivity.
Qed.

(** The loop of [healthCheck], for any body that pings the connection of
    the entry and assigns the report of the answer. *)
Lemma health_loop
    (body : JSObject.t HealthReport -> string * Handle -> M (JSObject.t HealthReport))
    (Hbody : forall health kv w,
        body health kv w =
        let (answer, d1) := drv_ping (snd kv) (driver w) in
        (Normal (JSObject.assign (fst kv) (report_of (snd kv) answer d1) health),
         with_driver d1 (with_calls (calls w ++ [call_ping (snd kv)]) w)))
    (entries : JSMap.t Handle) :
  forall health w,
    fold_each entries body health w =
    (Normal (assign_all (fst (reports_of entries (driver w))) health),
     with_driver (snd (reports_of entries (driver w)))
       (with_calls (calls w ++ map (fun kv => call_ping (snd kv)) entries) w)).
Proof.
  induction entries as [|[key connection] rest IH]; intros health w.
  - simpl. rewrite app_nil_r. now destruct w.
  - cbn [fold_each reports_of]. unfold bind at 1. rewrite Hbody. cbn [fst snd].
    destruct (drv_ping connection (driver w)) as [answer d1].
    rewrite IH. cbn [driver with_driver].
    destruct (reports_of rest d1) as [reports d2].
    cbn [fst snd assign_all fold_left map].
    unfold with_driver, with_calls. cbn [calls driver]. simpl calls.
    now rewrite <- app_assoc.
Qed.

Lemma healthCheck_eq w :
  healthCheck w =
  (Normal (assign_all (fst (reports_of (connections w) (driver w))) JSObject.empty),
   mkWorld (connections w)
           (baseConnectionString w) (mainDbName w) (connectionOptions w)
           (listeners w) (maps w)
           (pinged (connections w) (driver w))
           (calls w ++ map (fun kv => call_ping (snd kv)) (connections w))
           (console w)).
Proof.
  unfold healthCheck. cbn [Map_read].
  rewrite health_loop; [reflexivity|].
  intros health kv w'. cbv beta zeta.
  unfold try_catch, bind at 1, connection_db_admin_ping.
  destruct (drv_ping (snd kv) (driver w')) as [[error|] d1]; reflexivity.
Qed.

End Loops.

Section Snapshot.
Context {D : Driver}.
Implicit Types (w : World) (key : string).

Lemma nth_last {A} (l : list A) (x d : A) : nth (length l) (l ++ [x]) d = x.
Proof. induction l as [|y l IH]; simpl; [reflexivity|exact IH]. Qed.

Lemma list_update_last {A} (l : list A) (x y : A) :
  list_update (length l) y (l ++ [x]) = l ++ [y].
Proof. induction l as [|z l IH]; simpl; [reflexivity|now rewrite IH]. Qed.

Lemma with_maps_id w : with_maps (maps w) w = w.
Proof. now destruct w. Qed.

(** The loop of [getActiveConnections], for any body that copies a ready
    entry into the map at address [length ms] and skips the others.
    [acc] is the content of that map when the loop starts. *)
Lemma active_loop
    (body : string * Handle -> M unit) (ms : list (JSMap.t Handle))
    (Hbody : forall kv w,
        body kv w =
        (Normal tt,
         if ready (driver w) kv
         then Map_write (allocated (length ms))
                (JSMap.set (fst kv) (snd kv)
                   (Map_read (allocated (length ms)) w)) w
         else w))
    (entries : JSMap.t Handle) :
  forall acc w,
    maps w = ms ++ [acc] ->
    NoDup (JSMap.keys acc ++ JSMap.keys entries) ->
    for_each entries body w =
    (Normal tt, with_maps (ms ++ [acc ++ filter (ready (driver w)) entries]) w).
Proof.
  induction entries as [|[key connection] rest IH]; intros acc w Hmaps Hnd.
  - simpl. rewrite app_nil_r.
    transitivity (Normal tt, with_maps (maps w) w);
      [now rewrite with_maps_id | now rewrite Hmaps].
  - cbn [for_each filter]. unfold bind. rewrite Hbody.
    destruct (ready (driver w) (key, connection)) eqn:Hready.
    + cbn [Map_write Map_read fst snd]. rewrite Hmaps, nth_last, list_update_last.
      assert (Habsent : JSMap.get key acc = None).
      { apply JSMapFacts.get_None_keys. intros Hin.
        apply NoDup_remove_2 in Hnd. apply Hnd.
        apply in_or_app. now left. }
      rewrite (JSMapFacts.set_absent _ _ _ Habsent).
      rewrite (IH (acc ++ [(key, connection)])); cbn [maps with_maps driver].
      * rewrite <- app_assoc. reflexivity.
      * reflexivity.
      * unfold JSMap.keys in *. rewrite map_app, <- app_assoc. exact Hnd.
    + rewrite (IH acc w Hmaps); [reflexivity|].
      simpl in Hnd. now apply NoDup_remove_1 in Hnd.
Qed.

Lemma getActiveConnections_eq w :
  JSMap.wf (connections w) ->
  getActiveConnections w =
  (Normal (allocated (length (maps w))),
   with_maps (maps w ++ [filter (ready (driver w)) (connections w)]) w).
Proof.
  intros Hwf. unfold getActiveConnections, bind at 1, new_Map.
  unfold bind at 1, for_of.
  rewrite (active_loop _ (maps w)) with (acc := JSMap.empty).
  - reflexivity.
  - intros kv w'. unfold bind, connection_readyState, ready.
    destruct (drv_readyState (snd kv) (driver w') =? 1)%Z; reflexivity.
  - reflexivity.
  - exact Hwf.
Qed.

End Snapshot.

(** ** Invariants of the reachable states *)

Section Invariants.
Context {D : Driver}.
Implicit Types (w : World) (key : string) (m : JSMap.t Handle).

Lemma evict_all_cons callback callbacks m :
  evict_all (callback :: callbacks) m =
  evict_all callbacks (evict_all [callback] m).
Proof. reflexivity. Qed.

Lemma evict_one_In x callback m : In x (evict_all [callback] m) -> In x m.
Proof.
  unfold evict_all. simpl. destruct (evicts callback); [|trivial].
  apply JSMapFacts.delete_In.
Qed.

Lemma evict_one_wf callback m : JSMap.wf m -> JSMap.wf (evict_all [callback] m).
Proof.
  unfold evict_all. simpl. destruct (evicts callback); [|trivial].
  apply JSMapFacts.wf_delete.
Qed.

Lemma evict_all_In x callbacks m : In x (evict_all callbacks m) -> In x m.
Proof.
  revert m. induction callbacks as [|c cs IH]; intros m; [trivial|].
  rewrite evict_all_cons. intros H. apply (evict_one_In x c), IH, H.
Qed.

Lemma evict_all_wf callbacks m : JSMap.wf m -> JSMap.wf (evict_all callbacks m).
Proof.
  revert m. induction callbacks as [|c cs IH]; intros m; [trivial|].
  rewrite evict_all_cons. intros H. now apply IH, evict_one_wf.
Qed.

Lemma evict_all_None key callbacks m :
  JSMap.get key m = None -> JSMap.get key (evict_all callbacks m) = None.
Proof.
  rewrite !JSMapFacts.get_None_keys. intros H Hin. apply H.
  apply in_map_iff in Hin. destruct Hin as [[k v] [Hk Hin]]. simpl in Hk. subst k.
  apply evict_all_In in Hin. now apply (JSMapFacts.In_keys key v).
Qed.

Lemma evict_all_gone key callback callbacks m :
  JSMap.wf m -> In callback callbacks -> evicts callback = Some key ->
  JSMap.get key (evict_all callbacks m) = None.
Proof.
  revert m. induction callbacks as [|c cs IH]; intros m Hwf Hin Hev; [destruct Hin|].
  rewrite evict_all_cons. destruct Hin as [->|Hin].
  - apply evict_all_None. unfold evict_all. simpl. rewrite Hev.
    now apply JSMapFacts.get_delete_same.
  - apply IH; [now apply evict_one_wf|assumption|assumption].
Qed.

Lemma Inv_new env d : Inv (new_ConnectionsContext env d).
Proof.
  split; [apply JSMapFacts.wf_empty|]. intros key c [].
Qed.

(** Any state with the same listeners and a sub-map of the entries. *)
Lemma Inv_shrink w w' :
  Inv w ->
  JSMap.wf (connections w') ->
  (forall x, In x (connections w') -> In x (connections w)) ->
  (forall x, In x (listeners w) -> In x (listeners w')) ->
  Inv w'.
Proof.
  intros [_ Hl] Hwf Hsub Hls. split; [assumption|].
  intros key c Hin. destruct (Hl key c (Hsub _ Hin)) as [H1 H2].
  split; now apply Hls.
Qed.

Lemma Inv_connect tenantId key w :
  Inv w -> Inv (snd (getConnection_connect tenantId key w)).
Proof.
  intros HI. rewrite getConnection_connect_eq. cbv zeta.
  destruct (drv_createConnection _ _ _) as [[error|c] d]; cbn [snd].
  - apply (Inv_shrink w); cbn; try tauto. apply HI.
  - destruct HI as [Hwf Hl]. split; cbn.
    + now apply JSMapFacts.wf_set.
    + intros k' c' Hin. cbn in Hin.
      apply JSMapFacts.set_In in Hin. destruct Hin as [Heq|Hin].
      * injection Heq as -> ->. split; apply in_or_app; right; simpl; tauto.
      * destruct (Hl k' c' Hin) as [H1 H2].
        split; apply in_or_app; now left.
Qed.

Lemma Inv_step s w : Inv w -> Inv (step s w).
Proof.
  intros HI. destruct s as [t| |t| | |t|c ev arg|d|n k c|n k|n]; cbn [step].
  - rewrite getConnection_eq, getConnection_cached_eq.
    destruct (JSMap.get _ (connections w)) as [c|].
    + destruct (drv_readyState c (driver w) =? 1)%Z; [exact HI|].
      apply Inv_connect. apply (Inv_shrink w); cbn; try tauto.
      * apply JSMapFacts.wf_delete, HI.
      * intros x. apply JSMapFacts.delete_In.
    + now apply Inv_connect.
  - rewrite getActiveConnections_eq by apply HI.
    apply (Inv_shrink w); cbn; try tauto. apply HI.
  - rewrite closeConnection_eq. cbv zeta.
    destruct (JSMap.get _ (connections w)) as [c|]; [|exact HI].
    destruct (drv_close c (driver w)) as [answer d].
    apply (Inv_shrink w); cbn; try tauto.
    + apply JSMapFacts.wf_delete, HI.
    + intros x. apply JSMapFacts.delete_In.
  - rewrite closeAllConnections_eq.
    apply (Inv_shrink w); cbn; try tauto. apply JSMapFacts.wf_empty.
  - rewrite healthCheck_eq.
    apply (Inv_shrink w); cbn; try tauto. apply HI.
  - rewrite getConnectionInfo_eq. exact HI.
  - rewrite emit_eq. cbv zeta.
    apply (Inv_shrink w); cbn; try tauto.
    + apply evict_all_wf, HI.
    + intros x. apply evict_all_In.
  - apply (Inv_shrink w); cbn; try tauto. apply HI.
  - apply (Inv_shrink w); cbn; try tauto. apply HI.
  - apply (Inv_shrink w); cbn; try tauto. apply HI.
  - apply (Inv_shrink w); cbn; try tauto. apply HI.
Qed.

Lemma reachable_Inv w : reachable w -> Inv w.
Proof.
  induction 1 as [env d|s w _ IH]; [apply Inv_new | now apply Inv_step].
Qed.

End Invariants.

(** ** The contracts of the methods *)

Section Contracts.
Context {D : Driver}.
Implicit Types (w : World) (tenantId : option string) (key : string).

Lemma getConnection_caches tenantId w connection w1 :
  getConnection tenantId w = (Normal connection, w1) ->
  JSMap.get (connectionKey_of tenantId) (connections w1) = Some connection.
Proof.
  rewrite getConnection_eq, getConnection_cached_eq.
  destruct (JSMap.get _ (connections w)) as [c|] eqn:E.
  - destruct (drv_readyState c (driver w) =? 1)%Z.
    + intros [= <- <-]. exact E.
    + rewrite getConnection_connect_eq. cbv zeta.
      destruct (drv_createConnection _ _ _) as [[error|c'] d]; [discriminate|].
      intros [= <- <-]. cbn. apply JSMapFacts.get_set_same.
  - rewrite getConnection_connect_eq. cbv zeta.
    destruct (drv_createConnection _ _ _) as [[error|c'] d]; [discriminate|].
    intros [= <- <-]. cbn. apply JSMapFacts.get_set_same.
Qed.

Lemma getConnection_hit tenantId w connection :
  JSMap.get (connectionKey_of tenantId) (connections w) = Some connection ->
  drv_readyState connection (driver w) = 1%Z ->
  getConnection tenantId w = (Normal connection, w).
Proof.
  intros Hget Hready.
  now rewrite getConnection_eq, getConnection_cached_eq, Hget, Hready.
Qed.

Lemma getConnection_calls tenantId w :
  cache_miss tenantId w ->
  calls (snd (getConnection tenantId w)) =
  calls w ++ [call_createConnection (connectionString_of tenantId w)
                                    (connectionOptions w)].
Proof.
  unfold cache_miss. rewrite getConnection_eq, getConnection_cached_eq.
  destruct (JSMap.get _ (connections w)) as [c|].
  - destruct (drv_readyState c (driver w) =? 1)%Z; [discriminate|]. intros _.
    rewrite getConnection_connect_eq. cbv zeta.
    now destruct (drv_createConnection _ _ _) as [[error|c'] d].
  - intros _. rewrite getConnection_connect_eq. cbv zeta.
    now destruct (drv_createConnection _ _ _) as [[error|c'] d].
Qed.

(** C1. A cached record whose connection reports ready is returned as it
    is, and nothing at all changes: no request goes to the driver.  A
    cached record that is not ready is deleted first, the connection
    attempt then starts from the map without it, and the only request
    sent is the connection request: the stale connection is not closed.
    Calling again right after a successful call, the returned connection
    still reporting ready, yields the same connection and changes
    nothing. *)
Theorem getConnection_reuses_or_evicts tenantId w connection :
  JSMap.get (connectionKey_of tenantId) (connections w) = Some connection ->
  (if (drv_readyState connection (driver w) =? 1)%Z
   then getConnection tenantId w = (Normal connection, w)
   else
     cache_miss tenantId w
     /\ after_lookup tenantId w =
        with_connections
          (JSMap.delete (connectionKey_of tenantId) (connections w)) w
     /\ getConnection tenantId w =
        getConnection_connect tenantId (connectionKey_of tenantId)
          (after_lookup tenantId w)
     /\ calls (snd (getConnection tenantId w)) =
        calls w ++ [call_createConnection (connectionString_of tenantId w)
                                          (connectionOptions w)])
  /\ (forall c w1,
        getConnection tenantId w = (Normal c, w1) ->
        drv_readyState c (driver w1) = 1%Z ->
        getConnection tenantId w1 = (Normal c, w1)).
Proof.
  intros Hget. split.
  - destruct (drv_readyState connection (driver w) =? 1)%Z eqn:Hready.
    + apply getConnection_hit; [assumption|now apply Z.eqb_eq].
    + assert (Hmiss : cache_miss tenantId w).
      { unfold cache_miss. now rewrite getConnection_cached_eq, Hget, Hready. }
      assert (Hafter : after_lookup tenantId w =
                       with_connections
                         (JSMap.delete (connectionKey_of tenantId) (connections w)) w).
      { unfold after_lookup. now rewrite getConnection_cached_eq, Hget, Hready. }
      repeat split; try assumption.
      * rewrite getConnection_eq. unfold after_lookup.
        now rewrite getConnection_cached_eq, Hget, Hready.
      * now apply getConnection_calls.
  - intros c w1 Hcall Hready.
    apply getConnection_hit; [|assumption].
    now apply (getConnection_caches tenantId w).
Qed.

(** C5. [closeConnection] completes normally in every state.  Without a
    record for the resolved key nothing changes.  With one, exactly one
    close request is sent, its answer is logged whether it succeeded or
    failed, and the record of that key, and no other, is gone
    afterwards. *)
Theorem closeConnection_never_raises tenantId w :
  JSMap.wf (connections w) ->
  fst (closeConnection tenantId w) = Normal tt
  /\ match JSMap.get (connectionKey_of tenantId) (connections w) with
     | None => snd (closeConnection tenantId w) = w
     | Some connection =>
         let w' := snd (closeConnection tenantId w) in
         connections w' = JSMap.delete (connectionKey_of tenantId) (connections w)
         /\ JSMap.has (connectionKey_of tenantId) (connections w') = false
         /\ (forall key, key <> connectionKey_of tenantId ->
               JSMap.get key (connections w') = JSMap.get key (connections w))
         /\ calls w' = calls w ++ [call_close connection]
         /\ console w' =
            console w ++
            [closing_line (connectionKey_of tenantId)
                          (fst (drv_close connection (driver w)))]
     end.
Proof.
  intros Hwf. rewrite closeConnection_eq. cbv zeta.
  destruct (JSMap.get _ (connections w)) as [c|]; [|now split].
  destruct (drv_close c (driver w)) as [answer d]. cbn.
  repeat split.
  - unfold JSMap.has. now rewrite JSMapFacts.get_delete_same.
  - intros key Hne. now apply JSMapFacts.get_delete_other.
Qed.

Lemma close_answers_length (entries : JSMap.t Handle) d :
  length (fst (close_answers entries d)) = length entries.
Proof.
  revert d. induction entries as [|[key c] rest IH]; intros d; simpl; [reflexivity|].
  destruct (drv_close c d) as [answer d1].
  specialize (IH d1). destruct (close_answers rest d1) as [lines d2].
  simpl in *. now rewrite IH.
Qed.

Lemma closing_lines_permutation (results : list (string * option JSError)) :
  Permutation (closed_lines results ++ failed_lines results)
              (map (fun ka => closing_line (fst ka) (snd ka)) results).
Proof.
  induction results as [|[key [error|]] rest IH]; cbn.
  - constructor.
  - apply Permutation_sym, Permutation_cons_app, Permutation_sym, IH.
  - now constructor.
Qed.

(** C6. [closeAllConnections] completes normally in every state, sends
    one close request for every record, in order, whatever the driver
    answers to the others, logs one line per answer, in some order, and
    then a final line, and leaves the map empty; [getActiveConnections]
    then returns an empty map. *)
Theorem closeAllConnections_empties w :
  let w' := snd (closeAllConnections w) in
  fst (closeAllConnections w) = Normal tt
  /\ connections w' = JSMap.empty
  /\ calls w' = calls w ++ map (fun kv => call_close (snd kv)) (connections w)
  /\ (exists lines,
        console w' = console w ++ lines ++ [log_all_closed]
        /\ Permutation lines (fst (close_answers (connections w) (driver w))))
  /\ length (fst (close_answers (connections w) (driver w))) =
     length (connections w)
  /\ exists active w'',
       getActiveConnections w' = (Normal active, w'')
       /\ Map_read active w'' = JSMap.empty.
Proof.
  rewrite closeAllConnections_eq. cbn.
  split; [reflexivity|]. split; [reflexivity|]. split; [reflexivity|].
  split.
  { eexists. split; [reflexivity|].
    rewrite (proj1 (close_results_lines (connections w) (driver w))).
    apply closing_lines_permutation. }
  split; [apply close_answers_length|].
  eexists. eexists. split.
  - reflexivity.
  - cbn. apply nth_last.
Qed.

(** C9. [getConnectionInfo] changes nothing and sends nothing to the
    driver.  It returns [null] when the resolved key has no record, and
    otherwise the key, the ready state, host, port and name read from the
    connection, and the names of its models (none when the connection has
    no [models]). *)
Theorem getConnectionInfo_pure_lookup tenantId w :
  getConnectionInfo tenantId w =
  (Normal
     match JSMap.get (connectionKey_of tenantId) (connections w) with
     | None => None
     | Some connection =>
         Some {| info_key := connectionKey_of tenantId;
                 info_readyState := drv_readyState connection (driver w);
                 info_host := drv_host connection (driver w);
                 info_port := drv_port connection (driver w);
                 info_dbName := drv_name connection (driver w);
                 info_collections :=
                   match drv_models connection (driver w) with
                   | Some names => names
                   | None => []
                   end |}
     end, w).
Proof. apply getConnectionInfo_eq. Qed.

(** C10. The empty string is falsy: as a tenant id it resolves to the key
    [main], names the default database, and makes [getConnection],
    [closeConnection] and [getConnectionInfo] behave exactly as [null]
    does. *)
Theorem empty_tenantId_is_null w :
  connectionKey_of (Some "") = "main"
  /\ connectionKey_of None = "main"
  /\ dbName_of (Some "") w = mainDbName w
  /\ getConnection (Some "") w = getConnection None w
  /\ closeConnection (Some "") w = closeConnection None w
  /\ getConnectionInfo (Some "") w = getConnectionInfo None w.
Proof. repeat split. Qed.

End Contracts.

Section Eviction.
Context {D : Driver}.
Implicit Types (w : World) (tenantId : option string) (key : string).

Lemma get_filter_None {V} (f : string * V -> bool) key (m : JSMap.t V) :
  JSMap.get key m = None -> JSMap.get key (filter f m) = None.
Proof.
  rewrite !JSMapFacts.get_None_keys. intros H Hin. apply H.
  apply in_map_iff in Hin. destruct Hin as [[k v] [Hk Hin]]. simpl in Hk. subst k.
  apply filter_In in Hin. now apply (JSMapFacts.In_keys key v).
Qed.

Lemma installed_listener_runs w key connection eventName callback :
  listeners_installed w ->
  In (key, connection) (connections w) ->
  (eventName = "error" /\ callback = cb_error key) \/
  (eventName = "disconnected" /\ callback = cb_disconnected key) ->
  In callback
     (map snd (filter (listens connection eventName) (listeners w))).
Proof.
  intros Hl Hin Hev. destruct (Hl key connection Hin) as [H1 H2].
  apply in_map_iff.
  destruct Hev as [[-> ->]|[-> ->]].
  - exists (connection, "error", cb_error key). split; [reflexivity|].
    apply filter_In. split; [assumption|].
    unfold listens. simpl. now rewrite Nat.eqb_refl.
  - exists (connection, "disconnected", cb_disconnected key). split; [reflexivity|].
    apply filter_In. split; [assumption|].
    unfold listens. simpl. now rewrite Nat.eqb_refl.
Qed.

Lemma emit_evicts w key connection eventName arg :
  Inv w ->
  In (key, connection) (connections w) ->
  eventName = "error" \/ eventName = "disconnected" ->
  JSMap.get key (connections (snd (emit connection eventName arg w))) = None.
Proof.
  intros [Hwf Hl] Hin Hev. rewrite emit_eq. cbn.
  destruct Hev as [->| ->].
  - apply (evict_all_gone key (cb_error key)); [assumption| |reflexivity].
    apply (installed_listener_runs w key); auto.
  - apply (evict_all_gone key (cb_disconnected key)); [assumption| |reflexivity].
    apply (installed_listener_runs w key); auto.
Qed.

(** C2. In a reachable state, when the connection cached under a key
    emits [error] or [disconnected], the listeners run to completion
    without throwing, send nothing to the driver, and only remove
    entries: the record of that key is gone, no key holds that connection
    any more, the map returned by [getActiveConnections] has no entry for
    the key, and the next [getConnection] resolving to the key sends a
    connection request. *)
Theorem driver_event_evicts_record w key connection eventName arg :
  reachable w ->
  JSMap.get key (connections w) = Some connection ->
  eventName = "error" \/ eventName = "disconnected" ->
  let w' := snd (emit connection eventName arg w) in
  fst (emit connection eventName arg w) = Normal tt
  /\ JSMap.has key (connections w') = false
  /\ (forall key', JSMap.get key' (connections w') <> Some connection)
  /\ (forall x, In x (connections w') -> In x (connections w))
  /\ calls w' = calls w
  /\ (exists active w'',
        getActiveConnections w' = (Normal active, w'')
        /\ JSMap.get key (Map_read active w'') = None)
  /\ (forall tenantId,
        connectionKey_of tenantId = key ->
        calls (snd (getConnection tenantId w')) =
        calls w ++ [call_createConnection (connectionString_of tenantId w)
                                          (connectionOptions w)]).
Proof.
  intros Hreach Hget Hev w'.
  pose proof (reachable_Inv w Hreach) as HI.
  assert (Hgone : JSMap.get key (connections w') = None).
  { apply emit_evicts; [assumption| |assumption]. now apply JSMapFacts.get_In. }
  assert (Hwf' : JSMap.wf (connections w')).
  { subst w'. rewrite emit_eq. cbn. apply evict_all_wf, HI. }
  assert (Hsub : forall x, In x (connections w') -> In x (connections w)).
  { subst w'. rewrite emit_eq. cbn. intros x. apply evict_all_In. }
  repeat split.
  - now rewrite emit_eq.
  - unfold JSMap.has. now rewrite Hgone.
  - intros key' Hget'.
    assert (Hin : In (key', connection) (connections w)).
    { apply Hsub. now apply JSMapFacts.get_In. }
    pose proof (emit_evicts w key' connection eventName arg HI Hin Hev) as Hnone.
    fold w' in Hnone. congruence.
  - exact Hsub.
  - subst w'. now rewrite emit_eq.
  - eexists. eexists. split.
    + now apply getActiveConnections_eq.
    + cbn. rewrite nth_last. now apply get_filter_None.
  - intros tenantId Hkey.
    rewrite getConnection_calls.
    + subst w'. now rewrite emit_eq.
    + unfold cache_miss. rewrite getConnection_cached_eq, Hkey, Hgone. reflexivity.
Qed.

End Eviction.

Section Target.
Context {D : Driver}.
Implicit Types (w : World) (tenantId : option string) (key : string).

Lemma length_append (s1 s2 : string) :
  String.length (s1 ++ s2) = String.length s1 + String.length s2.
Proof. induction s1 as [|a s1 IH]; simpl; [reflexivity|now rewrite IH]. Qed.

Lemma suffixed_name_differs (main t : string) : (main ++ "_" ++ t)%string <> main.
Proof.
  intros H. apply (f_equal String.length) in H.
  rewrite !length_append in H. simpl in H. lia.
Qed.

(** C3, amended. On a cache miss [getConnection] asks the driver, once,
    for the address made of the base address, a slash and the database
    name.  The database name follows the tenant id argument, not the
    resolved key: it is [mainDbName] exactly when the argument is [null]
    or the empty string, and [mainDbName], an underscore and the argument
    for every other argument, the string [main] included. *)
Theorem getConnection_target tenantId w :
  cache_miss tenantId w ->
  let databaseName : string :=
    match tenantId with
    | None => mainDbName w
    | Some t =>
        if (t =? "")%string then mainDbName w else (mainDbName w ++ "_" ++ t)%string
    end in
  calls (snd (getConnection tenantId w)) =
  calls w ++ [call_createConnection
                (baseConnectionString w ++ "/" ++ databaseName)%string
                (connectionOptions w)]
  /\ (databaseName = mainDbName w <-> tenantId = None \/ tenantId = Some "")
  /\ (tenantId = Some "main" -> databaseName = (mainDbName w ++ "_main")%string).
Proof.
  intros Hmiss databaseName.
  assert (Hname : dbName_of tenantId w = databaseName).
  { unfold dbName_of, databaseName, truthy.
    destruct tenantId as [t|]; [|reflexivity].
    now destruct (t =? "")%string. }
  split; [|split].
  - rewrite getConnection_calls by assumption.
    unfold connectionString_of. now rewrite Hname.
  - unfold databaseName. destruct tenantId as [t|].
    + destruct (String.eqb_spec t "") as [->|Hne].
      * split; auto.
      * split.
        -- intros H. now apply suffixed_name_differs in H.
        -- intros [H|H]; [discriminate|]. injection H as ->. contradiction.
    + split; auto.
  - intros ->. reflexivity.
Qed.

(** C4, amended. When the driver rejects the connection request of a
    cache miss, [getConnection] throws an error whose message is
    [Database connection failed: ] followed by the message of the
    driver's error; the tenant key goes to the console only.  Nothing is
    stored: the map is the one before the call without the record of the
    key (a stale record was evicted, no other record is touched), no
    listener is registered, and exactly one request was sent. *)
Theorem getConnection_failure tenantId w error d :
  cache_miss tenantId w ->
  drv_createConnection (connectionString_of tenantId w) (connectionOptions w)
                       (driver w) = (inl error, d) ->
  let w' := snd (getConnection tenantId w) in
  fst (getConnection tenantId w) =
    Throw (mkError ("Database connection failed: " ++ message error))
  /\ connections w' = connections (after_lookup tenantId w)
  /\ connections w' = JSMap.delete (connectionKey_of tenantId) (connections w)
  /\ listeners w' = listeners w
  /\ maps w' = maps w
  /\ driver w' = d
  /\ calls w' =
     calls w ++ [call_createConnection (connectionString_of tenantId w)
                                       (connectionOptions w)]
  /\ console w' =
     console w ++ [error_failed_to_connect (connectionKey_of tenantId) error].
Proof.
  unfold cache_miss, after_lookup. intros Hmiss Hdrv.
  rewrite getConnection_eq. revert Hmiss. rewrite getConnection_cached_eq.
  destruct (JSMap.get _ (connections w)) as [c|] eqn:Hget.
  - destruct (drv_readyState c (driver w) =? 1)%Z; [discriminate|]. intros _.
    rewrite getConnection_connect_eq. cbv zeta.
    change (connectionString_of tenantId (with_connections _ w))
      with (connectionString_of tenantId w).
    cbn [connectionOptions driver with_connections]. rewrite Hdrv. cbn.
    repeat split.
  - intros _. rewrite getConnection_connect_eq. cbv zeta. rewrite Hdrv. cbn.
    repeat split. now rewrite JSMapFacts.delete_absent.
Qed.

End Target.

Section Reads.
Context {D : Driver}.
Implicit Types (w : World) (key : string).

Lemma keys_app {V} (m1 m2 : JSMap.t V) :
  JSMap.keys (m1 ++ m2) = JSMap.keys m1 ++ JSMap.keys m2.
Proof. apply map_app. Qed.










Lemma wf_filter {V} (f : string * V -> bool) (m : JSMap.t V) :
  JSMap.wf m -> JSMap.wf (filter f m).
Proof.
  unfold JSMap.wf.
  induction m as [|[k v] m IH]; simpl; [trivial|].
  intros Hnd. inversion Hnd as [|? ? Hnotin Hnd']; subst.
  destruct (f (k, v)); simpl; [|now apply IH].
  constructor; [|now apply IH].
  intros Hin. apply Hnotin.
  apply in_map_iff in Hin. destruct Hin as [[k' v'] [Hk Hin]]. simpl in Hk. subst k'.
  apply filter_In in Hin. now apply (JSMapFacts.In_keys k v').
Qed.

Lemma get_filter {V} (f : string * V -> bool) key v (m : JSMap.t V) :
  JSMap.wf m ->
  JSMap.get key (filter f m) = Some v <->
  JSMap.get key m = Some v /\ f (key, v) = true.
Proof.
  intros Hwf. split.
  - intros H. apply JSMapFacts.get_In, filter_In in H. destruct H as [Hin Hf].
    split; [now apply JSMapFacts.In_get | assumption].
  - intros [Hget Hf]. apply JSMapFacts.In_get; [now apply wf_filter|].
    apply filter_In. split; [now apply JSMapFacts.get_In | assumption].
Qed.

(** C8. [getActiveConnections] returns a reference to a [Map] that did
    not exist before the call, hence not the one in [this.connections];
    its entries are the entries of [this.connections] whose connection
    reports ready, in the same order.  The call changes nothing else, and
    writing through the returned reference afterwards leaves
    [this.connections] as it is. *)
Theorem getActiveConnections_snapshot w :
  JSMap.wf (connections w) ->
  let n := length (maps w) in
  let w' := snd (getActiveConnections w) in
  fst (getActiveConnections w) = Normal (allocated n)
  /\ allocated n <> this_connections
  /\ Map_read (allocated n) w' = filter (ready (driver w)) (connections w)
  /\ (forall key connection,
        JSMap.get key (Map_read (allocated n) w') = Some connection <->
        JSMap.get key (connections w) = Some connection
        /\ drv_readyState connection (driver w) = 1%Z)
  /\ w' = with_maps (maps w ++ [filter (ready (driver w)) (connections w)]) w
  /\ connections w' = connections w
  /\ (forall m, connections (Map_write (allocated n) m w') = connections w).
Proof.
  intros Hwf n w'. subst w'. rewrite getActiveConnections_eq by assumption.
  cbn [fst snd].
  assert (Hread : Map_read (allocated n)
                    (with_maps (maps w ++ [filter (ready (driver w)) (connections w)]) w)
                  = filter (ready (driver w)) (connections w)).
  { cbn. apply nth_last. }
  split; [reflexivity|]. split; [discriminate|]. split; [exact Hread|].
  split; [|now repeat split].
  intros key connection. rewrite Hread, (get_filter _ _ _ _ Hwf).
  unfold ready. cbn [snd]. now rewrite Z.eqb_eq.
Qed.

End Reads.

(** ** The contracts on the scenarios of the specification *)

Lemma scenario_t1_reachable : reachable scenario_t1.
Proof.
  exact (reachable_step (do_getConnection (Some "t1")) _
           (reachable_new (D := MockDriver) scenario_env Mock.initial)).
Defined.

Lemma scenario_t1_wf : JSMap.wf (connections scenario_t1).
Proof. repeat constructor. intros []. Defined.

Lemma getConnection_reuses_or_evicts_witness :
  JSMap.get (connectionKey_of (Some "t1")) (connections scenario_t1) = Some 0
  /\ getConnection (Some "t1") scenario_t1 = (Normal 0, scenario_t1).
Proof.
  split; [reflexivity|].
  exact (proj1 (getConnection_reuses_or_evicts (Some "t1") scenario_t1 0 eq_refl)).
Defined.

(** A record that is not ready: it is dropped, a second connection is
    requested and cached, and the first one is never closed. *)
Example getConnection_replaces_stale :
  fst (getConnection (Some "t1") scenario_t1_down) = Normal 1
  /\ connections (snd (getConnection (Some "t1") scenario_t1_down)) = [("t1", 1)]
  /\ calls (snd (getConnection (Some "t1") scenario_t1_down)) =
     [call_createConnection "mongodb+srv://cluster/app_t1" scenario_options;
      call_createConnection "mongodb+srv://cluster/app_t1" scenario_options].
Proof. repeat split. Qed.

Lemma driver_event_evicts_record_witness :
  reachable scenario_t1
  /\ JSMap.get "t1" (connections scenario_t1) = Some 0
  /\ ("error" = "error" \/ "error" = "disconnected")
  /\ JSMap.has "t1" (connections (snd (emit 0 "error" None scenario_t1))) = false.
Proof.
  split; [exact scenario_t1_reachable|].
  split; [reflexivity|].
  split; [left; reflexivity|].
  exact (proj1 (proj2 (driver_event_evicts_record
                         scenario_t1 "t1" 0 "error" None
                         scenario_t1_reachable eq_refl (or_introl eq_refl)))).
Defined.

Lemma getConnection_target_witness :
  cache_miss (Some "t1") (scenario Mock.initial)
  /\ calls (snd (getConnection (Some "t1") (scenario Mock.initial))) =
     [call_createConnection "mongodb+srv://cluster/app_t1" scenario_options].
Proof.
  split; [reflexivity|].
  exact (proj1 (getConnection_target (Some "t1") (scenario Mock.initial) eq_refl)).
Defined.

Example getConnection_null_targets_default_database :
  calls (snd (getConnection None (scenario Mock.initial))) =
  [call_createConnection "mongodb+srv://cluster/app" scenario_options].
Proof. reflexivity. Qed.

(** The tenant id [main] resolves to the key [main], which the
    specification maps to the default database [app]; the address
    requested is that of the database [app_main]. *)
Lemma explicit_main_targets_suffixed_database :
  cache_miss (Some "main") (scenario Mock.initial)
  /\ connectionKey_of (Some "main") = "main"
  /\ spec_databaseName (Some "main") (scenario Mock.initial) = "app"
  /\ calls (snd (getConnection (Some "main") (scenario Mock.initial))) =
     [call_createConnection "mongodb+srv://cluster/app_main" scenario_options]
  /\ calls (snd (getConnection (Some "main") (scenario Mock.initial))) <>
     [call_createConnection
        (baseConnectionString (scenario Mock.initial) ++ "/" ++
         spec_databaseName (Some "main") (scenario Mock.initial))%string
        scenario_options].
Proof. repeat split. discriminate. Qed.

Lemma getConnection_failure_witness :
  cache_miss (Some "t1") scenario_refusing
  /\ drv_createConnection (connectionString_of (Some "t1") scenario_refusing)
                          (connectionOptions scenario_refusing)
                          (driver scenario_refusing) =
     (inl (mkError "ECONNREFUSED"), driver scenario_refusing)
  /\ fst (getConnection (Some "t1") scenario_refusing) =
     Throw (mkError "Database connection failed: ECONNREFUSED")
  /\ connections (snd (getConnection (Some "t1") scenario_refusing)) = [].
Proof.
  split; [reflexivity|]. split; [reflexivity|].
  pose proof (getConnection_failure (Some "t1") scenario_refusing
                (mkError "ECONNREFUSED") (driver scenario_refusing)
                eq_refl eq_refl) as H.
  split; [exact (proj1 H) | exact (proj1 (proj2 (proj2 H)))].
Defined.

(** Two tenants refused for the same cause get the same error: the error
    thrown does not tell the tenant key, and the key does not occur in
    its message, while the cause does. *)
Lemma connection_error_lacks_tenant_key :
  fst (getConnection (Some "t1") scenario_refusing) =
    Throw (mkError "Database connection failed: ECONNREFUSED")
  /\ fst (getConnection (Some "t2") scenario_refusing) =
     Throw (mkError "Database connection failed: ECONNREFUSED")
  /\ connectionKey_of (Some "t1") <> connectionKey_of (Some "t2")
  /\ carries (mkError "Database connection failed: ECONNREFUSED")
             (connectionKey_of (Some "t1")) = false
  /\ carries (mkError "Database connection failed: ECONNREFUSED")
             "ECONNREFUSED" = true.
Proof. repeat split. discriminate. Qed.

Lemma closeConnection_never_raises_witness :
  JSMap.wf (connections scenario_t1)
  /\ fst (closeConnection (Some "t1") scenario_t1) = Normal tt.
Proof.
  split; [exact scenario_t1_wf|].
  exact (proj1 (closeConnection_never_raises (Some "t1") scenario_t1 scenario_t1_wf)).
Defined.

(** Closing a connection that is down fails in the driver; the failure
    is logged and the record is removed all the same. *)
Example closeConnection_failing_close :
  closeConnection (Some "t1") scenario_t1_down =
  (Normal tt,
   with_console
     (console scenario_t1_down ++
      [error_closing_connection "t1" (mkError "connection is not open")])
     (with_calls (calls scenario_t1_down ++ [call_close 0])
        (with_connections [] scenario_t1_down))).
Proof. vm_compute. reflexivity. Qed.

(** Three tenants, the close of the second one fails: its line comes
    after the lines of the closes that succeeded. *)
Example closeAllConnections_three_tenants :
  connections scenario_three = [("t1", 0); ("t2", 1); ("t3", 2)]
  /\ fst (closeAllConnections scenario_three) = Normal tt
  /\ connections (snd (closeAllConnections scenario_three)) = []
  /\ calls (snd (closeAllConnections scenario_three)) =
     calls scenario_three ++ [call_close 0; call_close 1; call_close 2]
  /\ console (snd (closeAllConnections scenario_three)) =
     console scenario_three ++
     [log_closed_connection "t1";
      log_closed_connection "t3";
      error_closing_connection "t2" (mkError "connection is not open");
      log_all_closed].
Proof. vm_compute. repeat split. Qed.

Lemma scenario_three_wf : JSMap.wf (connections scenario_three).
Proof.
  repeat constructor; simpl; intros H;
    repeat (destruct H as [H|H]; [discriminate|]); exact H.
Defined.


Example healthCheck_three_tenants :
  match fst (healthCheck scenario_three) with
  | Normal health =>
      JSObject.own health "t1" =
        Some (healthy 1 (JSString "cluster") (JSNumber 27017)
                      (JSString "mongodb+srv://cluster/app_t1"))
      /\ JSObject.own health "t2" = Some (unhealthy "ping timed out" 0)
      /\ JSObject.own health "t3" =
         Some (healthy 1 (JSString "cluster") (JSNumber 27017)
                       (JSString "mongodb+srv://cluster/app_t3"))
      /\ JSObject.own health "t4" = None
      /\ JSObject.proto health = None
  | Throw _ => False
  end.
Proof. vm_compute. repeat split. Qed.


Lemma getActiveConnections_snapshot_witness :
  JSMap.wf (connections scenario_three)
  /\ fst (getActiveConnections scenario_three) = Normal (allocated 0)
  /\ Map_read (allocated 0) (snd (getActiveConnections scenario_three)) =
     [("t1", 0); ("t3", 2)].
Proof.
  split; [exact scenario_three_wf|].
  pose proof (getActiveConnections_snapshot scenario_three scenario_three_wf) as H.
  split; [exact (proj1 H) | exact (proj1 (proj2 (proj2 H)))].
Defined.

(** ** Further properties of [getConnection] *)

Section GetConnection.
Context {D : Driver}.
Implicit Types (w : World) (tenantId : option string) (key : string).

(** The two ways a call of [getConnection] goes: a hit, or a request
    answered by the driver, from the map without the record of the key. *)
Lemma getConnection_cases tenantId w :
  let key := connectionKey_of tenantId in
  let request :=
    call_createConnection (connectionString_of tenantId w) (connectionOptions w) in
  (exists connection,
      JSMap.get key (connections w) = Some connection
      /\ drv_readyState connection (driver w) = 1%Z
      /\ getConnection tenantId w = (Normal connection, w))
  \/ (cache_miss tenantId w
      /\ exists answer d,
          drv_createConnection (connectionString_of tenantId w)
                               (connectionOptions w) (driver w) = (answer, d)
          /\ getConnection tenantId w =
             match answer with
             | inr connection =>
                 (Normal connection,
                  mkWorld (JSMap.set key connection (JSMap.delete key (connections w)))
                          (baseConnectionString w) (mainDbName w) (connectionOptions w)
                          (listeners w ++ installed connection key) (maps w) d
                          (calls w ++ [request])
                          (console w ++
                           [log_connected_to_database (dbName_of tenantId w)]))
             | inl error =>
                 (Throw (mkError ("Database connection failed: " ++ message error)),
                  mkWorld (JSMap.delete key (connections w))
                          (baseConnectionString w) (mainDbName w) (connectionOptions w)
                          (listeners w) (maps w) d
                          (calls w ++ [request])
                          (console w ++ [error_failed_to_connect key error]))
             end).
Proof.
  intros key request. subst key request.
  unfold cache_miss. rewrite getConnection_eq, getConnection_cached_eq.
  destruct (JSMap.get _ (connections w)) as [c|] eqn:Hget.
  - destruct (drv_readyState c (driver w) =? 1)%Z eqn:Hready.
    + left. exists c. repeat split. now apply Z.eqb_eq.
    + right. split; [reflexivity|].
      rewrite getConnection_connect_eq. cbv zeta.
      change (connectionString_of tenantId (with_connections _ w))
        with (connectionString_of tenantId w).
      cbn [connectionOptions driver with_connections].
      destruct (drv_createConnection _ _ _) as [answer d].
      exists answer, d. split; [reflexivity|]. now destruct answer.
  - right. split; [reflexivity|].
    rewrite getConnection_connect_eq. cbv zeta.
    rewrite (JSMapFacts.delete_absent _ _ Hget).
    destruct (drv_createConnection _ _ _) as [answer d].
    exists answer, d. split; [reflexivity|]. now destruct answer.
Qed.

(** X1. When the driver accepts the connection request of a cache miss,
    [getConnection] returns the new connection, caches it under the
    resolved key, leaves every other record alone, registers the four
    listeners of the key on it, sends that one request and logs the
    database name; [getConnectionInfo] for the same tenant then describes
    this connection. *)
Theorem getConnection_success tenantId w connection d :
  cache_miss tenantId w ->
  drv_createConnection (connectionString_of tenantId w) (connectionOptions w)
                       (driver w) = (inr connection, d) ->
  let key := connectionKey_of tenantId in
  let w' := snd (getConnection tenantId w) in
  fst (getConnection tenantId w) = Normal connection
  /\ JSMap.get key (connections w') = Some connection
  /\ (forall key', key' <> key ->
        JSMap.get key' (connections w') = JSMap.get key' (connections w))
  /\ (JSMap.wf (connections w) -> JSMap.wf (connections w'))
  /\ listeners w' = listeners w ++ installed connection key
  /\ maps w' = maps w
  /\ driver w' = d
  /\ calls w' =
     calls w ++ [call_createConnection (connectionString_of tenantId w)
                                       (connectionOptions w)]
  /\ console w' = console w ++ [log_connected_to_database (dbName_of tenantId w)]
  /\ exists info,
       fst (getConnectionInfo tenantId w') = Normal (Some info)
       /\ info_key info = key
       /\ info_readyState info = drv_readyState connection d.
Proof.
  intros Hmiss Hdrv key w'. subst w'.
  destruct (getConnection_cases tenantId w) as [[c [Hget [Hready _]]]|[_ Hreq]].
  - exfalso. unfold cache_miss in Hmiss.
    rewrite getConnection_cached_eq, Hget, Hready in Hmiss. discriminate.
  - destruct Hreq as [answer [d' [Hdrv' Heq]]].
    rewrite Hdrv in Hdrv'. injection Hdrv' as <- <-.
    rewrite Heq. cbn [fst snd connections listeners maps driver calls console].
    fold key.
    assert (Hkey : JSMap.get key
                     (JSMap.set key connection (JSMap.delete key (connections w))) =
                   Some connection) by apply JSMapFacts.get_set_same.
    split; [reflexivity|]. split; [exact Hkey|].
    split.
    { intros key' Hne.
      rewrite JSMapFacts.get_set_other by assumption.
      now apply JSMapFacts.get_delete_other. }
    split.
    { intros Hwf. now apply JSMapFacts.wf_set, JSMapFacts.wf_delete. }
    do 5 (split; [reflexivity|]).
    rewrite getConnectionInfo_eq. cbv zeta.
    cbn [fst connections driver]. fold key. rewrite Hkey.
    eexists. split; [reflexivity|]. split; reflexivity.
Qed.

(** X2. Whatever its outcome, a call of [getConnection] touches at most
    the record of the key it resolves to: every other key maps to what it
    mapped to before, no [Map] handed out is written, and at most one
    request, a connection request, goes to the driver. *)
Theorem getConnection_touches_one_key tenantId w :
  let w' := snd (getConnection tenantId w) in
  (forall key, key <> connectionKey_of tenantId ->
     JSMap.get key (connections w') = JSMap.get key (connections w))
  /\ maps w' = maps w
  /\ (calls w' = calls w
      \/ calls w' =
         calls w ++ [call_createConnection (connectionString_of tenantId w)
                                           (connectionOptions w)]).
Proof.
  intros w'. subst w'.
  destruct (getConnection_cases tenantId w) as [[c [_ [_ Heq]]]|[_ Hreq]].
  - rewrite Heq. cbn. repeat split. now left.
  - destruct Hreq as [answer [d [_ Heq]]]. rewrite Heq.
    destruct answer as [error|c]; cbn [snd connections maps calls].
    + split; [|split; [reflexivity|now right]].
      intros key Hne. now apply JSMapFacts.get_delete_other.
    + split; [|split; [reflexivity|now right]].
      intros key Hne. rewrite JSMapFacts.get_set_other by assumption.
      now apply JSMapFacts.get_delete_other.
Qed.

End GetConnection.

(** ** Keys and database addresses *)

Section Names.
Context {D : Driver}.
Implicit Types (w : World) (tenantId : option string).

Lemma append_inj_l (s a b : string) : (s ++ a)%string = (s ++ b)%string -> a = b.
Proof.
  induction s as [|c s IH]; simpl; [trivial|].
  intros H. injection H as H. now apply IH.
Qed.

Lemma truthy_true tenantId :
  truthy tenantId = true ->
  exists s, tenantId = Some s /\ s <> "" /\
            connectionKey_of tenantId = s /\
            forall w, dbName_of tenantId w = (mainDbName w ++ "_" ++ s)%string.
Proof.
  destruct tenantId as [s|]; [|discriminate]. simpl.
  destruct (String.eqb_spec s "") as [->|Hne]; [discriminate|]. intros _.
  exists s. repeat split; try assumption.
  - unfold connectionKey_of, js_or, truthy.
    destruct (String.eqb_spec s ""); [contradiction|reflexivity].
  - intros w. unfold dbName_of, truthy.
    destruct (String.eqb_spec s ""); [contradiction|reflexivity].
Qed.

Lemma truthy_false tenantId :
  truthy tenantId = false ->
  connectionKey_of tenantId = "main" /\ forall w, dbName_of tenantId w = mainDbName w.
Proof.
  intros H. unfold connectionKey_of, js_or, dbName_of. now rewrite H.
Qed.

Lemma same_address_same_name (t1 t2 : option string) w :
  connectionString_of t1 w = connectionString_of t2 w <->
  dbName_of t1 w = dbName_of t2 w.
Proof.
  unfold connectionString_of. split.
  - intros H. apply append_inj_l in H. now apply (append_inj_l "/") in H.
  - now intros ->.
Qed.

Lemma same_address_iff (t1 t2 : option string) w :
  connectionString_of t1 w = connectionString_of t2 w <->
  (truthy t1 = false /\ truthy t2 = false) \/ (truthy t1 = true /\ t1 = t2).
Proof.
  rewrite same_address_same_name.
  destruct (truthy t1) eqn:H1, (truthy t2) eqn:H2.
  - destruct (truthy_true t1 H1) as [s1 [-> [_ [_ Hd1]]]].
    destruct (truthy_true t2 H2) as [s2 [-> [_ [_ Hd2]]]].
    rewrite Hd1, Hd2. split.
    + intros H. right. split; [reflexivity|].
      apply append_inj_l in H. apply (append_inj_l "_") in H. now subst.
    + intros [[H _]|[_ H]]; [discriminate|]. now injection H as ->.
  - destruct (truthy_true t1 H1) as [s1 [-> [_ [_ Hd1]]]].
    destruct (truthy_false t2 H2) as [_ Hd2].
    rewrite Hd1, Hd2. split.
    + intros H. now apply suffixed_name_differs in H.
    + intros [[H _]|[_ H]]; [discriminate|].
      subst t2. rewrite H1 in H2. discriminate.
  - destruct (truthy_false t1 H1) as [_ Hd1].
    destruct (truthy_true t2 H2) as [s2 [-> [_ [_ Hd2]]]].
    rewrite Hd1, Hd2. split.
    + intros H. symmetry in H. now apply suffixed_name_differs in H.
    + intros [[_ H]|[H _]]; discriminate.
  - destruct (truthy_false t1 H1) as [_ Hd1].
    destruct (truthy_false t2 H2) as [_ Hd2].
    rewrite Hd1, Hd2. split; [now left | reflexivity].
Qed.

(** X3. Two tenant ids lead to the same database address only when they
    resolve to the same key: either both are falsy ([null] or the empty
    string), or they are the same non-empty string. *)
Theorem same_address_same_tenant (t1 t2 : option string) w :
  connectionString_of t1 w = connectionString_of t2 w <->
  (truthy t1 = false /\ truthy t2 = false) \/ (truthy t1 = true /\ t1 = t2).
Proof. apply same_address_iff. Qed.

(** X4. The converse fails in exactly one way: two tenant ids share a
    cache key while naming different databases if and only if one of them
    is the string [main] and the other is falsy. *)
Theorem key_shared_across_databases (t1 t2 : option string) w :
  (connectionKey_of t1 = connectionKey_of t2
   /\ connectionString_of t1 w <> connectionString_of t2 w) <->
  (t1 = Some "main" /\ truthy t2 = false) \/ (truthy t1 = false /\ t2 = Some "main").
Proof.
  rewrite same_address_iff.
  destruct (truthy t1) eqn:H1, (truthy t2) eqn:H2.
  - destruct (truthy_true t1 H1) as [s1 [-> [_ [Hk1 _]]]].
    destruct (truthy_true t2 H2) as [s2 [-> [_ [Hk2 _]]]].
    rewrite Hk1, Hk2. split.
    + intros [-> Hne]. exfalso. apply Hne. now right.
    + intros [[_ H]|[H _]]; discriminate.
  - destruct (truthy_true t1 H1) as [s1 [-> [_ [Hk1 _]]]].
    destruct (truthy_false t2 H2) as [Hk2 _].
    rewrite Hk1, Hk2. split.
    + intros [-> _]. now left.
    + intros [[H _]|[H _]]; [|discriminate].
      injection H as ->. split; [reflexivity|].
      intros [[H _]|[_ H]]; [discriminate|].
      subst t2. discriminate.
  - destruct (truthy_false t1 H1) as [Hk1 _].
    destruct (truthy_true t2 H2) as [s2 [-> [_ [Hk2 _]]]].
    rewrite Hk1, Hk2. split.
    + intros [<- _]. now right.
    + intros [[_ H]|[_ H]]; [discriminate|].
      injection H as ->. split; [reflexivity|].
      intros [[_ H]|[H _]]; discriminate.
  - split.
    + intros [_ Hne]. exfalso. apply Hne. now left.
    + intros [[-> _]|[_ ->]]; discriminate.
Qed.

(** X5. Hence the tenant [main] and the default tenant share one record:
    while the key [main] holds a ready connection, [getConnection("main")]
    and [getConnection(null)] both return it without asking the driver,
    although on a miss they would ask for different databases; and
    [closeConnection] and [getConnectionInfo] do not tell the two
    apart. *)
Theorem main_tenant_shares_default_record w connection :
  JSMap.get "main" (connections w) = Some connection ->
  drv_readyState connection (driver w) = 1%Z ->
  getConnection (Some "main") w = (Normal connection, w)
  /\ getConnection None w = (Normal connection, w)
  /\ connectionString_of (Some "main") w <> connectionString_of None w
  /\ closeConnection (Some "main") w = closeConnection None w
  /\ getConnectionInfo (Some "main") w = getConnectionInfo None w.
Proof.
  intros Hget Hready. repeat split.
  - now apply getConnection_hit.
  - now apply getConnection_hit.
  - intros H. apply same_address_iff in H.
    destruct H as [[H _]|[_ H]]; discriminate.
Qed.

End Names.

(** ** What a step changes *)

Section Steps.
Context {D : Driver}.
Implicit Types (w : World) (tenantId : option string) (key : string).

Lemma same_but_maps_refl w : same_but_maps w w.
Proof. repeat split. Qed.

Lemma for_each_same_but_maps {A} (body : A -> M unit) (l : list A) w0 :
  (forall x w, same_but_maps w0 w -> same_but_maps w0 (snd (body x w))) ->
  forall w, same_but_maps w0 w -> same_but_maps w0 (snd (for_each l body w)).
Proof.
  intros Hbody. induction l as [|x l IH]; intros w Hw; [exact Hw|].
  cbn [for_each]. unfold bind.
  pose proof (Hbody x w Hw) as Hx.
  destruct (body x w) as [[[]|e] w1]; cbn [snd] in *; [now apply IH | exact Hx].
Qed.

(** [getActiveConnections] writes nowhere but into [Map] objects handed
    out, in any state. *)
Lemma getActiveConnections_frame w :
  same_but_maps w (snd (getActiveConnections w)).
Proof.
  unfold getActiveConnections, bind at 1, new_Map. unfold bind at 1, for_of.
  match goal with
  | |- context [for_each ?l ?body ?w1] =>
      pose proof (for_each_same_but_maps body l w) as Hloop;
      specialize (Hloop) with (w := w1)
  end.
  match type of Hloop with
  | ?P -> ?Q -> ?R =>
      assert (HP : P); [|assert (HQ : Q); [|specialize (Hloop HP HQ)]]
  end.
  - intros kv w2 Hw2. unfold bind, connection_readyState.
    destruct (drv_readyState (snd kv) (driver w2) =? 1)%Z; [|exact Hw2].
    exact Hw2.
  - repeat split.
  - destruct (for_each _ _ _) as [[[]|e] w3]; exact Hloop.
Qed.

Lemma connectionKey_nonempty tenantId : connectionKey_of tenantId <> "".
Proof.
  unfold connectionKey_of, js_or, truthy.
  destruct tenantId as [s|]; [|discriminate]. simpl.
  destruct (String.eqb_spec s ""); [discriminate|assumption].
Qed.

(** A step either registers nothing and adds no record, or it is a
    [getConnection] that cached a new connection with its listeners. *)
Lemma step_shape s w :
  baseConnectionString (step s w) = baseConnectionString w
  /\ mainDbName (step s w) = mainDbName w
  /\ connectionOptions (step s w) = connectionOptions w
  /\ ((listeners (step s w) = listeners w
       /\ forall x, In x (connections (step s w)) -> In x (connections w))
      \/ exists tenantId connection,
           s = do_getConnection tenantId
           /\ listeners (step s w) =
              listeners w ++ installed connection (connectionKey_of tenantId)
           /\ connections (step s w) =
              JSMap.set (connectionKey_of tenantId) connection
                (JSMap.delete (connectionKey_of tenantId) (connections w))).
Proof.
  destruct s as [t| |t| | |t|c ev arg|d|n k c|n k|n]; cbn [step].
  - destruct (getConnection_cases t w) as [[c [_ [_ Heq]]]|[_ [answer [d [_ Heq]]]]];
      rewrite Heq.
    + repeat split. left. split; [reflexivity|trivial].
    + destruct answer as [error|c]; cbn; repeat split.
      * left. split; [reflexivity|]. intros x. apply JSMapFacts.delete_In.
      * right. exists t, c. repeat split.
  - destruct (getActiveConnections_frame w) as [Hc [Hb [Hm [Ho [Hl _]]]]].
    repeat split; try assumption. left. split; [assumption|]. now rewrite Hc.
  - rewrite closeConnection_eq. cbv zeta.
    destruct (JSMap.get _ (connections w)) as [c|].
    + destruct (drv_close c (driver w)) as [answer d]. cbn. repeat split.
      left. split; [reflexivity|]. intros x. apply JSMapFacts.delete_In.
    + repeat split. left. split; [reflexivity|trivial].
  - rewrite closeAllConnections_eq. cbn. repeat split.
    left. split; [reflexivity|]. intros x [].
  - rewrite healthCheck_eq. cbn. repeat split. left. split; [reflexivity|trivial].
  - rewrite getConnectionInfo_eq. cbn. repeat split.
    left. split; [reflexivity|trivial].
  - rewrite emit_eq. cbn. repeat split.
    left. split; [reflexivity|]. intros x. apply evict_all_In.
  - cbn. repeat split. left. split; [reflexivity|trivial].
  - cbn. repeat split. left. split; [reflexivity|trivial].
  - cbn. repeat split. left. split; [reflexivity|trivial].
  - cbn. repeat split. left. split; [reflexivity|trivial].
Qed.

Lemma js_or_nonempty (v : option string) (d : string) : d <> "" -> js_or v d <> "".
Proof.
  intros Hd. unfold js_or, truthy. destruct v as [s|]; [|assumption]. simpl.
  destruct (String.eqb_spec s ""); [assumption|assumption].
Qed.

Lemma run_config steps w :
  baseConnectionString (run steps w) = baseConnectionString w
  /\ mainDbName (run steps w) = mainDbName w
  /\ connectionOptions (run steps w) = connectionOptions w.
Proof.
  revert w. induction steps as [|s steps IH]; intros w; [repeat split|].
  cbn [run fold_left]. destruct (IH (step s w)) as [H1 [H2 H3]].
  destruct (step_shape s w) as [H4 [H5 [H6 _]]].
  unfold run in *. rewrite H1, H2, H3. now repeat split.
Qed.

(** X6. The configuration is set once: whatever calls, events and driver
    changes follow the constructor, the base address and the default
    database name are the environment's values, or the built-in defaults
    when a variable is unset or empty, they are never empty, and the
    options are the constructor's. *)
Theorem configuration_is_immutable env d steps :
  let w := run steps (new_ConnectionsContext env d) in
  baseConnectionString w =
    js_or (MONGODB_URI env) "mongodb+srv://<username>:<password>@<cluster-url>"
  /\ mainDbName w = js_or (MAIN_DB_NAME env) "defaultDb"
  /\ connectionOptions w = mkOptions 10 5000 45000 false
  /\ baseConnectionString w <> ""
  /\ mainDbName w <> ""
  /\ (truthy (MAIN_DB_NAME env) = false -> mainDbName w = "defaultDb").
Proof.
  intros w. subst w.
  destruct (run_config steps (new_ConnectionsContext env d)) as [H1 [H2 H3]].
  rewrite H1, H2, H3. cbn [baseConnectionString mainDbName connectionOptions
                            new_ConnectionsContext].
  repeat split.
  - apply js_or_nonempty. discriminate.
  - apply js_or_nonempty. discriminate.
  - intros H. unfold js_or. now rewrite H.
Qed.

(** X7. No operation ever removes a listener: a step leaves the registered
    listeners in place and adds either nothing or, when it is a
    [getConnection] that opened a connection, the four listeners of that
    connection. *)
Theorem listeners_only_grow s w :
  exists added,
    listeners (step s w) = listeners w ++ added
    /\ (added = []
        \/ exists tenantId connection,
             s = do_getConnection tenantId
             /\ added = installed connection (connectionKey_of tenantId)
             /\ JSMap.get (connectionKey_of tenantId) (connections (step s w)) =
                Some connection).
Proof.
  destruct (step_shape s w) as [_ [_ [_ [[Hl _]|[t [c [Hs [Hl Hc]]]]]]]].
  - exists []. rewrite app_nil_r. split; [assumption|now left].
  - exists (installed c (connectionKey_of t)). split; [assumption|].
    right. exists t, c. repeat split; try assumption.
    rewrite Hc. apply JSMapFacts.get_set_same.
Qed.

Lemma well_formed_new env d : well_formed (new_ConnectionsContext env d).
Proof.
  split; [apply JSMapFacts.wf_empty|].
  split; [intros key []|]. split; [intros key c []|intros l []].
Qed.

Lemma well_formed_step s w : well_formed w -> well_formed (step s w).
Proof.
  intros [Hwf [Hne [Hfull Hnamed]]].
  assert (Hwf' : JSMap.wf (connections (step s w))).
  { apply (Inv_step s w). split; [assumption|].
    intros key c Hin. pose proof (Hfull key c Hin) as Hincl.
    split; apply Hincl; simpl; tauto. }
  split; [assumption|].
  destruct (step_shape s w) as [_ [_ [_ [[Hl Hsub]|[t [c [Hs [Hl Hc]]]]]]]].
  - split; [|split].
    + intros key Hin. apply Hne.
      apply in_map_iff in Hin. destruct Hin as [[k v] [Hk Hin]].
      simpl in Hk. subst k. apply (JSMapFacts.In_keys key v). now apply Hsub.
    + intros key c Hin. rewrite Hl. now apply Hfull, Hsub.
    + intros l. rewrite Hl. apply Hnamed.
  - split; [|split].
    + intros key Hin.
      apply in_map_iff in Hin. destruct Hin as [[k v] [Hk Hin]].
      simpl in Hk. subst k. rewrite Hc in Hin.
      apply JSMapFacts.set_In in Hin. destruct Hin as [Heq|Hin].
      * injection Heq as -> _. apply connectionKey_nonempty.
      * apply Hne. apply (JSMapFacts.In_keys key v).
        now apply (JSMapFacts.delete_In _ _ _ Hin).
    + intros key c' Hin. rewrite Hc in Hin. rewrite Hl.
      apply JSMapFacts.set_In in Hin. destruct Hin as [Heq|Hin].
      * injection Heq as -> ->. apply incl_appr, incl_refl.
      * apply incl_appl, Hfull. now apply (JSMapFacts.delete_In _ _ _ Hin).
    + intros l. rewrite Hl. intros Hin. apply in_app_or in Hin.
      destruct Hin as [Hin|Hin]; [now apply Hnamed|].
      simpl in Hin.
      destruct Hin as [<-|[<-|[<-|[<-|[]]]]]; reflexivity.
Qed.

Lemma reachable_is_well_formed w : reachable w -> well_formed w.
Proof.
  induction 1 as [env d|s w _ IH];
    [apply well_formed_new | now apply well_formed_step].
Qed.

(** X8. In every state reached from the constructor, the keys of the map
    are distinct and never the empty string, every cached connection
    carries the four listeners of its own key, and every listener is
    registered under the event of its callback. *)
Theorem reachable_well_formed w :
  reachable w ->
  JSMap.wf (connections w)
  /\ (forall key, In key (JSMap.keys (connections w)) -> key <> "")
  /\ (forall key connection,
        JSMap.get key (connections w) = Some connection ->
        incl (installed connection key) (listeners w))
  /\ (forall connection eventName callback,
        In (connection, eventName, callback) (listeners w) ->
        eventName = event_of callback).
Proof.
  intros Hreach.
  destruct (reachable_is_well_formed w Hreach) as [Hwf [Hne [Hfull Hnamed]]].
  repeat split; try assumption.
  - intros key c Hget. now apply Hfull, JSMapFacts.get_In.
  - intros c ev cb Hin. exact (Hnamed _ Hin).
Qed.

End Steps.

(** ** Events *)

Section Events.
Context {D : Driver}.
Implicit Types (w : World) (tenantId : option string) (key : string).

Lemma listens_true connection eventName (l : Handle * string * Callback) :
  listens connection eventName l = true <->
  fst (fst l) = connection /\ snd (fst l) = eventName.
Proof.
  unfold listens. now rewrite andb_true_iff, Nat.eqb_eq, String.eqb_eq.
Qed.

Lemma evict_all_nothing callbacks (m : JSMap.t Handle) :
  (forall callback, In callback callbacks -> evicts callback = None) ->
  evict_all callbacks m = m.
Proof.
  revert m. induction callbacks as [|c cs IH]; intros m H; [reflexivity|].
  rewrite evict_all_cons. unfold evict_all at 2. simpl.
  rewrite (H c) by now left. apply IH. intros c' Hc'. apply H. now right.
Qed.

(** A listener registered for [error] or [disconnected] removes its key
    whenever its connection emits that event, whatever the map holds. *)
Lemma registered_listener_evicts w key connection eventName callback arg :
  JSMap.wf (connections w) ->
  In (connection, eventName, callback) (listeners w) ->
  evicts callback = Some key ->
  JSMap.get key (connections (snd (emit connection eventName arg w))) = None.
Proof.
  intros Hwf Hin Hev. rewrite emit_eq. cbn.
  apply (evict_all_gone key callback); [assumption| |assumption].
  apply in_map_iff. exists (connection, eventName, callback).
  split; [reflexivity|]. apply filter_In. split; [assumption|].
  now apply listens_true.
Qed.

(** X9. In a reachable state an event other than [error] and
    [disconnected] changes nothing but the console: the map, the
    listeners and the driver are untouched and no request is sent.
    [connected] and [reconnected] write one line per listener of the
    connection; any other event name writes nothing. *)
Theorem informational_events_only_log w connection eventName arg :
  reachable w ->
  eventName <> "error" ->
  eventName <> "disconnected" ->
  let w' := snd (emit connection eventName arg w) in
  fst (emit connection eventName arg w) = Normal tt
  /\ connections w' = connections w
  /\ listeners w' = listeners w
  /\ maps w' = maps w
  /\ driver w' = driver w
  /\ calls w' = calls w
  /\ console w' =
     console w ++
     map (fun l => callback_line (snd l) arg)
         (filter (listens connection eventName) (listeners w))
  /\ (eventName <> "connected" -> eventName <> "reconnected" ->
      console w' = console w).
Proof.
  intros Hreach Herr Hdis w'. subst w'.
  destruct (reachable_is_well_formed w Hreach) as [_ [_ [_ Hnamed]]].
  rewrite emit_eq. cbn.
  assert (Hev : forall l,
             In l (filter (listens connection eventName) (listeners w)) ->
             eventName = event_of (snd l)).
  { intros [[c ev] cb] Hin. apply filter_In in Hin. destruct Hin as [Hin Hl].
    apply listens_true in Hl. destruct Hl as [_ Hl]. simpl in *. subst ev.
    exact (Hnamed _ Hin). }
  repeat split.
  - apply evict_all_nothing. intros cb Hin.
    apply in_map_iff in Hin. destruct Hin as [l [<- Hin]].
    apply Hev in Hin. destruct (snd l); simpl in *; congruence.
  - intros Hcon Hrec.
    destruct (filter (listens connection eventName) (listeners w)) as [|l ls] eqn:E.
    + simpl. apply app_nil_r.
    + exfalso. assert (Hl : eventName = event_of (snd l)) by (apply Hev; now left).
      destruct (snd l); simpl in Hl; congruence.
Qed.

(** X10. The listeners remove by key, not by connection.  When the record
    of a key is not ready and [getConnection] replaces it, the dropped
    connection keeps its listeners: if it later emits [error] or
    [disconnected], the record of its successor is removed, although the
    successor emitted nothing and no close request is sent to it. *)
Theorem replaced_connection_evicts_successor
    tenantId w old current d d' eventName arg :
  reachable w ->
  JSMap.get (connectionKey_of tenantId) (connections w) = Some old ->
  drv_readyState old (driver w) <> 1%Z ->
  drv_createConnection (connectionString_of tenantId w) (connectionOptions w)
                       (driver w) = (inr current, d) ->
  eventName = "error" \/ eventName = "disconnected" ->
  let key := connectionKey_of tenantId in
  let w1 := with_driver d' (snd (getConnection tenantId w)) in
  let w2 := snd (emit old eventName arg w1) in
  fst (getConnection tenantId w) = Normal current
  /\ JSMap.get key (connections w1) = Some current
  /\ JSMap.has key (connections w2) = false
  /\ calls w2 = calls w1.
Proof.
  intros Hreach Hget Hstale Hdrv Hev key w1 w2.
  assert (Hmiss : cache_miss tenantId w).
  { unfold cache_miss. rewrite getConnection_cached_eq, Hget.
    destruct (Z.eqb_spec (drv_readyState old (driver w)) 1); [contradiction|reflexivity]. }
  destruct (reachable_is_well_formed w Hreach) as [Hwf [_ [Hfull _]]].
  specialize (Hfull _ _ (JSMapFacts.get_In _ _ _ Hget)).
  assert (Hcall :
    fst (getConnection tenantId w) = Normal current
    /\ JSMap.get key (connections (snd (getConnection tenantId w))) = Some current
    /\ JSMap.wf (connections (snd (getConnection tenantId w)))
    /\ listeners (snd (getConnection tenantId w)) =
       listeners w ++ installed current key).
  { destruct (getConnection_cases tenantId w)
      as [[c [Hget' [Hready _]]]|[_ [answer [d0 [Hdrv' Heq]]]]].
    - rewrite Hget in Hget'. injection Hget' as <-. contradiction.
    - rewrite Hdrv in Hdrv'. injection Hdrv' as <- <-. rewrite Heq. cbn.
      fold key. repeat split.
      + apply JSMapFacts.get_set_same.
      + now apply JSMapFacts.wf_set, JSMapFacts.wf_delete. }
  destruct Hcall as [Hres [Hcur [Hwf1 Hl1]]].
  split; [assumption|]. split; [exact Hcur|]. split.
  - unfold JSMap.has. subst w2.
    destruct Hev as [->| ->].
    + rewrite (registered_listener_evicts w1 key old "error" (cb_error key));
        [reflexivity|exact Hwf1| |reflexivity].
      subst w1. cbn [listeners with_driver]. rewrite Hl1.
      apply in_or_app. left. apply Hfull. simpl. tauto.
    + rewrite (registered_listener_evicts w1 key old "disconnected"
                 (cb_disconnected key));
        [reflexivity|exact Hwf1| |reflexivity].
      subst w1. cbn [listeners with_driver]. rewrite Hl1.
      apply in_or_app. left. apply Hfull. simpl. tauto.
  - subst w2. now rewrite emit_eq.
Qed.

End Events.

(** ** Closing, snapshots, concurrent calls and shutdown *)

Section Lifecycle.
Context {D : Driver}.
Implicit Types (w : World) (tenantId : option string) (key : string).

(** X11. After [closeConnection] the key is free, whatever the driver
    answered to the close request: [getConnectionInfo] returns [null], a
    second [closeConnection] changes nothing and sends nothing, and the
    next [getConnection] sends a connection request. *)
Theorem closeConnection_frees_key tenantId w :
  JSMap.wf (connections w) ->
  let w1 := snd (closeConnection tenantId w) in
  getConnectionInfo tenantId w1 = (Normal None, w1)
  /\ closeConnection tenantId w1 = (Normal tt, w1)
  /\ cache_miss tenantId w1
  /\ calls (snd (getConnection tenantId w1)) =
     calls w1 ++ [call_createConnection (connectionString_of tenantId w)
                                        (connectionOptions w)].
Proof.
  intros Hwf w1.
  assert (Hgone : JSMap.get (connectionKey_of tenantId) (connections w1) = None).
  { subst w1. rewrite closeConnection_eq. cbv zeta.
    destruct (JSMap.get _ (connections w)) as [c|] eqn:Hget; [|exact Hget].
    destruct (drv_close c (driver w)) as [answer d]. cbn.
    now apply JSMapFacts.get_delete_same. }
  assert (Hcfg : connectionString_of tenantId w1 = connectionString_of tenantId w
                 /\ connectionOptions w1 = connectionOptions w).
  { subst w1. rewrite closeConnection_eq. cbv zeta.
    destruct (JSMap.get _ (connections w)) as [c|]; [|now split].
    destruct (drv_close c (driver w)) as [answer d]. now split. }
  destruct Hcfg as [Hs Ho].
  assert (Hmiss : cache_miss tenantId w1).
  { unfold cache_miss. now rewrite getConnection_cached_eq, Hgone. }
  repeat split.
  - rewrite getConnectionInfo_eq. cbv zeta. now rewrite Hgone.
  - rewrite closeConnection_eq. cbv zeta. now rewrite Hgone.
  - exact Hmiss.
  - rewrite (getConnection_calls tenantId w1 Hmiss). now rewrite Hs, Ho.
Qed.

Lemma for_each_invariant {A} (P : World -> Prop) (body : A -> M unit) (l : list A) :
  (forall x w, P w -> P (snd (body x w))) ->
  forall w, P w -> P (snd (for_each l body w)).
Proof.
  intros Hbody. induction l as [|x l IH]; intros w Hw; [exact Hw|].
  cbn [for_each]. unfold bind.
  pose proof (Hbody x w Hw) as Hx.
  destruct (body x w) as [[[]|e] w1]; cbn [snd] in *; [now apply IH | exact Hx].
Qed.

Lemma list_update_length {A} n (x : A) l : length (list_update n x l) = length l.
Proof.
  revert n. induction l as [|y l IH]; intros n; [now destruct n|].
  destruct n; simpl; [reflexivity|now rewrite IH].
Qed.

Lemma list_update_nth_other {A} n n' (x d : A) l :
  n' <> n -> nth n' (list_update n x l) d = nth n' l d.
Proof.
  revert n n'. induction l as [|y l IH]; intros n n' Hne; [now destruct n|].
  destruct n, n'; simpl; try reflexivity; [contradiction|].
  apply IH. congruence.
Qed.

(** The [Map] objects that exist keep their content while
    [getActiveConnections] fills the one it creates. *)
Lemma getActiveConnections_keeps_maps w n :
  n < length (maps w) ->
  nth n (maps (snd (getActiveConnections w))) JSMap.empty = nth n (maps w) JSMap.empty.
Proof.
  intros Hn.
  unfold getActiveConnections, bind at 1, new_Map. unfold bind at 1, for_of.
  set (w1 := with_maps (maps w ++ [JSMap.empty]) w).
  set (P := fun w' : World =>
              length (maps w') = S (length (maps w))
              /\ nth n (maps w') JSMap.empty = nth n (maps w) JSMap.empty).
  match goal with
  | |- context [for_each ?l ?body w1] =>
      assert (Hloop : P (snd (for_each l body w1)))
  end.
  { apply for_each_invariant.
    - intros kv w2 [Hlen Hnth]. unfold bind, connection_readyState.
      destruct (drv_readyState (snd kv) (driver w2) =? 1)%Z; [|now split].
      cbn. unfold P. cbn [maps with_maps]. split.
      + now rewrite list_update_length.
      + rewrite list_update_nth_other; [assumption|lia].
    - unfold P. split; cbn.
      + rewrite length_app. simpl. lia.
      + now apply app_nth1. }
  destruct (for_each _ _ w1) as [[[]|e] w3]; apply Hloop.
Qed.

(** X12. A [Map] returned by [getActiveConnections] is a snapshot that
    the context never writes again: no later call of a method, event or
    driver change alters it, so it can list connections that have since
    been closed or evicted. *)
Theorem returned_maps_are_not_updated s w n :
  is_caller_write s = false ->
  n < length (maps w) ->
  Map_read (allocated n) (step s w) = Map_read (allocated n) w.
Proof.
  intros Hs Hn. cbn [Map_read].
  destruct s as [t| |t| | |t|c ev arg|d|n' k c|n' k|n']; try discriminate;
    cbn [step].
  - destruct (getConnection_cases t w) as [[c [_ [_ Heq]]]|[_ [answer [d [_ Heq]]]]];
      rewrite Heq; [reflexivity|]. now destruct answer.
  - now apply getActiveConnections_keeps_maps.
  - rewrite closeConnection_eq. cbv zeta.
    destruct (JSMap.get _ (connections w)) as [c|]; [|reflexivity].
    now destruct (drv_close c (driver w)).
  - now rewrite closeAllConnections_eq.
  - now rewrite healthCheck_eq.
  - now rewrite getConnectionInfo_eq.
  - now rewrite emit_eq.
  - reflexivity.
Qed.

Lemma set_set {V} key (v1 v2 : V) (m : JSMap.t V) :
  JSMap.set key v2 (JSMap.set key v1 m) = JSMap.set key v2 m.
Proof.
  induction m as [|[k v] m IH]; simpl.
  - now rewrite String.eqb_refl.
  - destruct (String.eqb_spec k key) as [->|Hne]; simpl.
    + now rewrite String.eqb_refl.
    + destruct (String.eqb_spec k key); [contradiction|now rewrite IH].
Qed.

(** [getConnection] is its part before the [await] followed by its part
    after it. *)
Lemma getConnection_split tenantId w :
  getConnection tenantId w =
  (r <- getConnection_request tenantId ;;
   match r with
   | inl connection => ret connection
   | inr pending => getConnection_resume pending
   end) w.
Proof.
  cbv beta zeta delta [getConnection getConnection_request bind].
  destruct (getConnection_cached _ w) as [[[c|]|e] w1]; try reflexivity.
  cbv beta iota zeta delta
    [getConnection_connect getConnection_resume try_catch bind ret
     mongoose_createConnection pending_promise pending_connectionKey
     pending_dbName].
  destruct (drv_createConnection _ _ _) as [[error|c] d]; reflexivity.
Qed.

Lemma getConnection_resume_eq (pending : Pending) w :
  getConnection_resume pending w =
  let key := pending_connectionKey pending in
  match pending_promise pending with
  | Normal connection =>
      (Normal connection,
       mkWorld (JSMap.set key connection (connections w))
               (baseConnectionString w) (mainDbName w) (connectionOptions w)
               (listeners w ++ installed connection key) (maps w) (driver w)
               (calls w)
               (console w ++ [log_connected_to_database (pending_dbName pending)]))
  | Throw error =>
      (Throw (mkError ("Database connection failed: " ++ message error)),
       mkWorld (connections w)
               (baseConnectionString w) (mainDbName w) (connectionOptions w)
               (listeners w) (maps w) (driver w) (calls w)
               (console w ++ [error_failed_to_connect key error]))
  end.
Proof.
  cbv beta zeta delta [getConnection_resume try_catch bind await].
  destruct (pending_promise pending) as [connection|error].
  - cbv beta iota zeta delta
      [setupConnectionListeners connection_on bind Map_set Map_write
       Map_read console_log ret with_console with_listeners with_connections
       installed
       connections baseConnectionString mainDbName connectionOptions listeners
       maps driver calls console].
    now rewrite <- !app_assoc.
  - reflexivity.
Qed.

(** X13. Two calls of [getConnection] for the same tenant that both pass
    the lookup before either resumes from its [await] each open a
    connection when the driver accepts both requests.  Both callers get
    their own connection, both connections get listeners, the second
    record overwrites the first, and the first connection is left out of
    the map without any close request. *)
Theorem concurrent_first_access_connects_twice tenantId w c1 c2 d1 d2 :
  JSMap.wf (connections w) ->
  cache_miss tenantId w ->
  drv_createConnection (connectionString_of tenantId w) (connectionOptions w)
                       (driver w) = (inr c1, d1) ->
  drv_createConnection (connectionString_of tenantId w) (connectionOptions w)
                       d1 = (inr c2, d2) ->
  let key := connectionKey_of tenantId in
  let request :=
    call_createConnection (connectionString_of tenantId w) (connectionOptions w) in
  exists p1 p2 wa wb w1 w2,
    getConnection_request tenantId w = (Normal (inr p1), wa)
    /\ getConnection_request tenantId wa = (Normal (inr p2), wb)
    /\ getConnection_resume p1 wb = (Normal c1, w1)
    /\ getConnection_resume p2 w1 = (Normal c2, w2)
    /\ connections w2 = JSMap.set key c2 (JSMap.delete key (connections w))
    /\ JSMap.get key (connections w2) = Some c2
    /\ listeners w2 = listeners w ++ installed c1 key ++ installed c2 key
    /\ calls w2 = calls w ++ [request; request].
Proof.
  intros Hwf Hmiss Hd1 Hd2 key request.
  unfold cache_miss in Hmiss. fold key in Hmiss.
  set (m := JSMap.delete key (connections w)).
  assert (Hlook : getConnection_cached key w = (Normal None, with_connections m w)).
  { revert Hmiss. rewrite getConnection_cached_eq. subst m.
    destruct (JSMap.get key (connections w)) as [c|] eqn:Hget.
    - destruct (drv_readyState c (driver w) =? 1)%Z; [discriminate|reflexivity].
    - intros _. rewrite (JSMapFacts.delete_absent _ _ Hget). now destruct w. }
  set (wa := with_driver d1 (with_calls (calls w ++ [request]) (with_connections m w))).
  set (wb := with_driver d2 (with_calls (calls wa ++ [request]) wa)).
  set (p1 := mkPending (Normal c1) key (dbName_of tenantId w)).
  set (p2 := mkPending (Normal c2) key (dbName_of tenantId w)).
  assert (Ha : getConnection_request tenantId w = (Normal (inr p1), wa)).
  { unfold getConnection_request, bind at 1. fold key. rewrite Hlook.
    unfold bind, mongoose_createConnection.
    change (connectionString_of tenantId (with_connections m w))
      with (connectionString_of tenantId w).
    cbn [connectionOptions driver with_connections]. rewrite Hd1. reflexivity. }
  assert (Hb : getConnection_request tenantId wa = (Normal (inr p2), wb)).
  { unfold getConnection_request, bind at 1. fold key.
    rewrite getConnection_cached_eq.
    assert (Hgone : JSMap.get key (connections wa) = None)
      by (cbn; subst m; now apply JSMapFacts.get_delete_same).
    rewrite Hgone.
    unfold bind, mongoose_createConnection.
    change (connectionString_of tenantId wa) with (connectionString_of tenantId w).
    change (connectionOptions wa) with (connectionOptions w).
    change (driver wa) with d1. rewrite Hd2. reflexivity. }
  exists p1, p2, wa, wb.
  eexists. eexists.
  split; [exact Ha|]. split; [exact Hb|].
  split; [rewrite getConnection_resume_eq; reflexivity|].
  split; [rewrite getConnection_resume_eq; reflexivity|].
  cbn [connections listeners calls pending_connectionKey p1 p2 wa wb
       with_driver with_calls with_connections].
  rewrite set_set. split; [reflexivity|].
  split; [apply JSMapFacts.get_set_same|].
  split; [now rewrite <- app_assoc | now rewrite <- app_assoc].
Qed.

(** X14. A termination signal always shuts down cleanly: whatever the
    driver answers to the close requests, the handler sends one for every
    record, empties the map and exits with status 0; after that no signal
    has any effect. *)
Theorem signal_closes_all_and_exits (signal : Signal) (p : Process) :
  exitCode p = None ->
  let p' := on_signal signal p in
  exitCode p' = Some 0%Z
  /\ announced p' = announced p ++ [signal]
  /\ connections (connectionsContext p') = JSMap.empty
  /\ calls (connectionsContext p') =
     calls (connectionsContext p) ++
     map (fun kv => call_close (snd kv)) (connections (connectionsContext p))
  /\ forall signal', on_signal signal' p' = p'.
Proof.
  intros Hrun p'. subst p'. unfold on_signal at 1 2 3 4. rewrite Hrun.
  rewrite closeAllConnections_eq. cbn. repeat split.
  intros signal'. unfold on_signal. rewrite Hrun.
  rewrite closeAllConnections_eq. reflexivity.
Qed.

End Lifecycle.

(** ** Requests to the driver *)

Section Requests.
Context {D : Driver}.
Implicit Types (w : World) (tenantId : option string) (key : string).

(** X15. The requests sent are never retracted, and a step only ever
    closes or pings connections that the map holds when the step starts:
    a connection dropped from the map, by an event or by being replaced,
    is never closed by any later operation.  A connection request always
    asks for the address of the tenant of the call. *)
Theorem requests_address_cached_connections s w :
  exists added,
    calls (step s w) = calls w ++ added
    /\ forall call, In call added ->
         match call with
         | call_close connection | call_ping connection =>
             exists key, In (key, connection) (connections w)
         | call_createConnection connectionString options =>
             exists tenantId,
               s = do_getConnection tenantId
               /\ connectionString = connectionString_of tenantId w
               /\ options = connectionOptions w
         end.
Proof.
  destruct s as [t| |t| | |t|c ev arg|d|n k c|n k|n]; cbn [step].
  - destruct (getConnection_cases t w) as [[c [_ [_ Heq]]]|[_ [answer [d [_ Heq]]]]];
      rewrite Heq.
    + exists []. rewrite app_nil_r. split; [reflexivity|intros call []].
    + eexists. split; [destruct answer; reflexivity|].
      intros call [<-|[]]. exists t. repeat split.
  - destruct (getActiveConnections_frame w) as [_ [_ [_ [_ [_ [_ [Hcalls _]]]]]]].
    exists []. rewrite app_nil_r. split; [assumption|intros call []].
  - rewrite closeConnection_eq. cbv zeta.
    destruct (JSMap.get _ (connections w)) as [c|] eqn:Hget.
    + destruct (drv_close c (driver w)) as [answer d].
      eexists. split; [reflexivity|].
      intros call [<-|[]]. exists (connectionKey_of t).
      now apply JSMapFacts.get_In.
    + exists []. rewrite app_nil_r. split; [reflexivity|intros call []].
  - rewrite closeAllConnections_eq. eexists. split; [reflexivity|].
    intros call Hin. apply in_map_iff in Hin. destruct Hin as [[key c] [<- Hin]].
    now exists key.
  - rewrite healthCheck_eq. eexists. split; [reflexivity|].
    intros call Hin. apply in_map_iff in Hin. destruct Hin as [[key c] [<- Hin]].
    now exists key.
  - rewrite getConnectionInfo_eq.
    exists []. rewrite app_nil_r. split; [reflexivity|intros call []].
  - rewrite emit_eq.
    exists []. cbn. rewrite app_nil_r. split; [reflexivity|intros call []].
  - exists []. cbn. rewrite app_nil_r. split; [reflexivity|intros call []].
  - exists []. cbn. rewrite app_nil_r. split; [reflexivity|intros call []].
  - exists []. cbn. rewrite app_nil_r. split; [reflexivity|intros call []].
  - exists []. cbn. rewrite app_nil_r. split; [reflexivity|intros call []].
Qed.

End Requests.

(** ** The further properties on the scenarios *)

Lemma getConnection_success_witness :
  cache_miss (Some "t1") (scenario Mock.initial)
  /\ drv_createConnection
       (connectionString_of (Some "t1") (scenario Mock.initial))
       (connectionOptions (scenario Mock.initial))
       (driver (scenario Mock.initial)) =
     (inr 0, Mock.mkState ["mongodb+srv://cluster/app_t1"] [] [])
  /\ fst (getConnection (Some "t1") (scenario Mock.initial)) = Normal 0
  /\ JSMap.get "t1" (connections (snd (getConnection (Some "t1")
                                         (scenario Mock.initial)))) = Some 0.
Proof.
  split; [reflexivity|]. split; [reflexivity|].
  pose proof (getConnection_success (D := MockDriver) (Some "t1") (scenario Mock.initial) 0
                (Mock.mkState ["mongodb+srv://cluster/app_t1"] [] [])
                eq_refl eq_refl) as H.
  split; [exact (proj1 H) | exact (proj1 (proj2 H))].
Defined.

Lemma main_tenant_shares_default_record_witness :
  JSMap.get "main" (connections scenario_main) = Some 0
  /\ drv_readyState (Driver := MockDriver) 0 (driver scenario_main) = 1%Z
  /\ getConnection (Some "main") scenario_main = (Normal 0, scenario_main)
  /\ calls scenario_main =
     [call_createConnection "mongodb+srv://cluster/app" scenario_options].
Proof.
  split; [reflexivity|]. split; [reflexivity|].
  split; [|reflexivity].
  exact (proj1 (main_tenant_shares_default_record (D := MockDriver) scenario_main 0 eq_refl eq_refl)).
Defined.

Lemma reachable_well_formed_witness :
  reachable scenario_t1
  /\ incl (installed 0 "t1") (listeners scenario_t1).
Proof.
  split; [exact scenario_t1_reachable|].
  exact (proj1 (proj2 (proj2 (reachable_well_formed scenario_t1
                                scenario_t1_reachable))) "t1" 0 eq_refl).
Defined.

Lemma informational_events_only_log_witness :
  reachable scenario_t1
  /\ "reconnected" <> "error"
  /\ "reconnected" <> "disconnected"
  /\ connections (snd (emit 0 "reconnected" None scenario_t1)) =
     connections scenario_t1.
Proof.
  split; [exact scenario_t1_reachable|].
  split; [discriminate|]. split; [discriminate|].
  refine (proj1 (proj2 (informational_events_only_log
                          scenario_t1 0 "reconnected" None
                          scenario_t1_reachable _ _))); discriminate.
Defined.

Lemma scenario_t1_down_reachable : reachable scenario_t1_down.
Proof.
  exact (reachable_step
           (do_driver (D := MockDriver)
              (Mock.mkState ["mongodb+srv://cluster/app_t1"] [] [0]))
           _ scenario_t1_reachable).
Defined.

Lemma replaced_connection_evicts_successor_witness :
  reachable scenario_t1_down
  /\ JSMap.get (connectionKey_of (Some "t1")) (connections scenario_t1_down) = Some 0
  /\ drv_readyState (Driver := MockDriver) 0 (driver scenario_t1_down) <> 1%Z
  /\ drv_createConnection
       (connectionString_of (Some "t1") scenario_t1_down)
       (connectionOptions scenario_t1_down) (driver scenario_t1_down) =
     (inr 1, driver scenario_replaced)
  /\ ("disconnected" = "error" \/ "disconnected" = "disconnected")
  /\ JSMap.get "t1" (connections scenario_replaced) = Some 1
  /\ JSMap.has "t1"
       (connections (snd (emit 0 "disconnected" None scenario_replaced))) = false.
Proof.
  assert (Hstale : drv_readyState (Driver := MockDriver) 0 (driver scenario_t1_down)
                   <> 1%Z) by discriminate.
  split; [exact scenario_t1_down_reachable|]. split; [reflexivity|].
  split; [exact Hstale|]. split; [reflexivity|]. split; [right; reflexivity|].
  pose proof (replaced_connection_evicts_successor (D := MockDriver)
                (Some "t1") scenario_t1_down 0 1
                (driver scenario_replaced) (driver scenario_replaced)
                "disconnected" None
                scenario_t1_down_reachable eq_refl Hstale eq_refl
                (or_intror eq_refl)) as H.
  split; [exact (proj1 (proj2 H)) | exact (proj1 (proj2 (proj2 H)))].
Defined.

Lemma closeConnection_frees_key_witness :
  JSMap.wf (connections scenario_t1)
  /\ getConnectionInfo (Some "t1") (snd (closeConnection (Some "t1") scenario_t1)) =
     (Normal None, snd (closeConnection (Some "t1") scenario_t1)).
Proof.
  split; [exact scenario_t1_wf|].
  exact (proj1 (closeConnection_frees_key (Some "t1") scenario_t1 scenario_t1_wf)).
Defined.

Lemma returned_maps_are_not_updated_witness :
  is_caller_write (D := MockDriver) do_closeAllConnections = false
  /\ 0 < length (maps scenario_snapshot)
  /\ connections (step do_closeAllConnections scenario_snapshot) = []
  /\ Map_read (allocated 0) (step do_closeAllConnections scenario_snapshot) =
     [("t1", 0); ("t3", 2)].
Proof.
  split; [reflexivity|]. split; [repeat constructor|]. split; [reflexivity|].
  exact (returned_maps_are_not_updated (D := MockDriver)
           do_closeAllConnections scenario_snapshot 0 eq_refl
           (le_n 1)).
Defined.

Lemma concurrent_first_access_connects_twice_witness :
  JSMap.wf (connections (scenario Mock.initial))
  /\ cache_miss (Some "t1") (scenario Mock.initial)
  /\ drv_createConnection
       (connectionString_of (Some "t1") (scenario Mock.initial))
       (connectionOptions (scenario Mock.initial))
       (driver (scenario Mock.initial)) =
     (inr 0, Mock.mkState ["mongodb+srv://cluster/app_t1"] [] [])
  /\ drv_createConnection (Driver := MockDriver)
       (connectionString_of (Some "t1") (scenario Mock.initial))
       (connectionOptions (scenario Mock.initial))
       (Mock.mkState ["mongodb+srv://cluster/app_t1"] [] []) =
     (inr 1, Mock.mkState ["mongodb+srv://cluster/app_t1";
                           "mongodb+srv://cluster/app_t1"] [] [])
  /\ exists w2 : @World MockDriver,
       connections w2 = [("t1", 1)] /\ length (listeners w2) = 8.
Proof.
  assert (Hwf : JSMap.wf (connections (scenario Mock.initial))) by constructor.
  split; [exact Hwf|]. split; [reflexivity|]. split; [reflexivity|].
  split; [reflexivity|].
  destruct (concurrent_first_access_connects_twice (D := MockDriver)
              (Some "t1") (scenario Mock.initial) 0 1
              (Mock.mkState ["mongodb+srv://cluster/app_t1"] [] [])
              (Mock.mkState ["mongodb+srv://cluster/app_t1";
                             "mongodb+srv://cluster/app_t1"] [] [])
              Hwf eq_refl eq_refl eq_refl)
    as [p1 [p2 [wa [wb [w1 [w2 [_ [_ [_ [_ [Hc [_ [Hl _]]]]]]]]]]]]].
  exists w2. split; [exact Hc|]. rewrite Hl. reflexivity.
Defined.

Lemma signal_closes_all_and_exits_witness :
  exitCode (mkProcess (D := MockDriver) scenario_three [] None) = None
  /\ exitCode (on_signal SIGTERM (mkProcess (D := MockDriver) scenario_three [] None)) = Some 0%Z
  /\ connections (connectionsContext
                    (on_signal SIGTERM (mkProcess (D := MockDriver) scenario_three [] None))) = [].
Proof.
  split; [reflexivity|].
  pose proof (signal_closes_all_and_exits (D := MockDriver) SIGTERM
                (mkProcess (D := MockDriver) scenario_three [] None) eq_refl) as H.
  split; [exact (proj1 H) | exact (proj1 (proj2 (proj2 H)))].
Defined.
